(** * Transaction retry runner and movie-listing handler

    A shallow embedding of the two scripts of the repository:

    - [src/03-mongodb-transactions/example.js], "Example 2: Core API":
      [commitWithRetry], [runTransactionWithRetry] and [updateEmployeeInfo];
    - [src/unnamed/part_000]: the [handler] that lists ten movies.

    The MongoDB driver and server are not part of the repository.  They are
    modelled as an oracle ([Database]) that answers every driver call from the
    history of what happened before, so every theorem quantifies over all
    deterministic behaviours of the server.  Promises are modelled by their
    completion: fulfilled, rejected with an error, or still pending when the
    recursion budget of the model is used up. *)

From Stdlib Require Import List String ZArith Lia Bool Arith PeanoNat.
Import ListNotations.
Open Scope string_scope.
Open Scope list_scope.

Set Implicit Arguments.

(** ** Documents and driver values *)

(** A BSON/JSON value, as far as the scripts build them. *)
#[warnings="-register-all"]
Inductive value : Type :=
| VNum (n : Z)
| VStr (s : string)
| VDoc (fields : list (string * value)).

Definition document : Type := list (string * value).

(** An error thrown by the driver.  [errorId] stands for the identity of
    the JavaScript object; [errorLabels] is the label set that
    [hasErrorLabel] consults.  Every value the scripts catch is taken to be
    such an error: the [catch] blocks call [error.hasErrorLabel] on it. *)
Record MongoError : Type := {
  errorId : nat;
  errorMessage : string;
  errorLabels : list string
}.

Definition hasErrorLabel (error : MongoError) (label : string) : bool :=
  existsb (String.eqb label) (errorLabels error).

Definition TransientTransactionError : string := "TransientTransactionError".
Definition UnknownTransactionCommitResult : string := "UnknownTransactionCommitResult".

(** [client.db(name).collection(name)]: a handle, no round trip. *)
Record Collection : Type := {
  dbName : string;
  collectionName : string
}.

Definition collection (dbname name : string) : Collection :=
  {| dbName := dbname; collectionName := name |}.

Record TransactionOptions : Type := {
  readConcern : string;
  writeConcern : string;
  readPreference : string
}.

(** The driver calls that reach the session or the server. *)
Inductive call : Type :=
| StartTransaction (options : TransactionOptions)
| UpdateOne (coll : Collection) (filter update : document)
| InsertOne (coll : Collection) (doc : document)
| CommitTransaction
| AbortTransaction
| EndSession.

(** What an observer of one run sees: each driver call with its outcome
    ([None]: it succeeded, [Some e]: it threw [e]) and each [console.log]. *)
Inductive event : Type :=
| Call (c : call) (outcome : option MongoError)
| Log (message : string).

(** The server and driver: the outcome of a call is a function of everything
    that happened before it. *)
Definition Database : Type := list event -> call -> option MongoError.

(** ** Promises *)

Inductive completion (A : Type) : Type :=
| Return (a : A)
| Throw (error : MongoError)
| Pending.

Arguments Throw {A} error.
Arguments Pending {A}.

(** An asynchronous computation: from the history so far to the events it adds
    and the way it completes. *)
Definition Async (A : Type) : Type := list event -> list event * completion A.

Definition throw {A} (error : MongoError) : Async A := fun _ => ([], Throw error).

Definition pending {A} : Async A := fun _ => ([], Pending).

Definition bind {A B} (m : Async A) (k : A -> Async B) : Async B :=
  fun h =>
    let (es, r) := m h in
    match r with
    | Return a => let (es', r') := k a (h ++ es) in (es ++ es', r')
    | Throw error => (es, Throw error)
    | Pending => (es, Pending)
    end.

(** [try { body } catch (error) { handler }]. *)
Definition try_catch {A} (body : Async A) (handler : MongoError -> Async A) : Async A :=
  fun h =>
    let (es, r) := body h in
    match r with
    | Throw error => let (es', r') := handler error (h ++ es) in (es ++ es', r')
    | _ => (es, r)
    end.

Declare Scope async_scope.
Delimit Scope async_scope with async.
Notation "m ;; k" := (bind m (fun _ => k))
  (at level 61, right associativity) : async_scope.
Notation "'try' body 'catch' error => handler" := (try_catch body (fun error => handler))
  (at level 62, error name, body at level 61, handler at level 61) : async_scope.
Open Scope async_scope.

Definition console_log (message : string) : Async unit :=
  fun _ => ([Log message], Return tt).

(** [await] of a driver call: the server decides, the call is recorded. *)
Definition await (server : Database) (c : call) : Async unit :=
  fun h =>
    match server h c with
    | None => ([Call c None], Return tt)
    | Some error => ([Call c (Some error)], Throw error)
    end.

(** ** Example 2: Core API *)

(** The scripts pass [client] and [session] to every function; both are
    handles on the one server of a run, which the model passes instead.
    [fuel] bounds the depth of the recursion: the JavaScript functions have no
    bound, and a result that is not [Pending] does not depend on it
    ([run_fuel_monotone]). *)

Section CoreAPI.

Variable server : Database.

(** [commitWithRetry(session)], example.js lines 77-90. *)
Fixpoint commitWithRetry (fuel : nat) : Async unit :=
  match fuel with
  | O => pending
  | S fuel' =>
      try (await server CommitTransaction ;;
           console_log "Transaction committed.")
      catch error =>
        (if hasErrorLabel error UnknownTransactionCommitResult then
           console_log "UnknownTransactionCommitResult, retrying commit operation ..." ;;
           commitWithRetry fuel'
         else
           console_log "Error during commit ..." ;;
           throw error)
  end.

(** [runTransactionWithRetry(txnFunc, client, session)], lines 92-106. *)
Fixpoint runTransactionWithRetry (fuel : nat) (txnFunc : Async unit) : Async unit :=
  match fuel with
  | O => pending
  | S fuel' =>
      try txnFunc
      catch error =>
        (console_log "Transaction aborted. Caught exception during transaction." ;;
         if hasErrorLabel error TransientTransactionError then
           console_log "TransientTransactionError, retrying transaction ..." ;;
           runTransactionWithRetry fuel' txnFunc
         else
           throw error)
  end.

Definition transactionOptions : TransactionOptions :=
  {| readConcern := "snapshot"; writeConcern := "majority"; readPreference := "primary" |}.

Definition updateEmployee : call :=
  UpdateOne (collection "hr" "employees")
    [("employee", VNum 3)]
    [("$set", VDoc [("status", VStr "Inactive")])].

Definition insertEvent : call :=
  InsertOne (collection "reporting" "events")
    [("employee", VNum 3);
     ("status", VDoc [("new", VStr "Inactive"); ("old", VStr "Active")])].

(** [updateEmployeeInfo(client, session)], lines 108-136.  [fuel] bounds the
    recursion of the commit it awaits. *)
Definition updateEmployeeInfo (fuel : nat) : Async unit :=
  await server (StartTransaction transactionOptions) ;;
  await server updateEmployee ;;
  await server insertEvent ;;
  (try commitWithRetry fuel
   catch error =>
     (await server AbortTransaction ;;
      throw error)).

(** The call of line 139: [runTransactionWithRetry(updateEmployeeInfo, client, session)]. *)
Definition run (fuel : nat) : Async unit :=
  runTransactionWithRetry fuel (updateEmployeeInfo fuel).

(** The reads and writes between [startTransaction] and the commit
    (lines 115-128): the unit of work of the transaction. *)
Definition workUnit : Async unit :=
  await server updateEmployee ;;
  await server insertEvent.

End CoreAPI.

(** ** Observing a run *)

Definition is_start (c : call) : bool :=
  match c with StartTransaction _ => true | _ => false end.
Definition is_update (c : call) : bool :=
  match c with UpdateOne _ _ _ => true | _ => false end.
Definition is_insert (c : call) : bool :=
  match c with InsertOne _ _ => true | _ => false end.
Definition is_commit (c : call) : bool :=
  match c with CommitTransaction => true | _ => false end.
Definition is_abort (c : call) : bool :=
  match c with AbortTransaction => true | _ => false end.
Definition is_close (c : call) : bool :=
  match c with EndSession => true | _ => false end.

(** How many calls of a kind a list of events holds. *)
Fixpoint count_calls (kind : call -> bool) (es : list event) : nat :=
  match es with
  | [] => 0
  | Call c _ :: es' => (if kind c then 1 else 0) + count_calls kind es'
  | Log _ :: es' => count_calls kind es'
  end.

(** Every execution of the unit of work opens with its [updateOne]. *)
Definition workUnit_executions (es : list event) : nat := count_calls is_update es.

(** The last call that threw, with the error it threw. *)
Fixpoint last_failure (es : list event) : option (call * MongoError) :=
  match es with
  | [] => None
  | ev :: es' =>
      match last_failure es' with
      | Some f => Some f
      | None =>
          match ev with
          | Call c (Some error) => Some (c, error)
          | _ => None
          end
      end
  end.

(** ** Scripted servers, for concrete runs *)

Definition calls_so_far (h : list event) : nat := count_calls (fun _ => true) h.

(** The n-th driver call of a run gets the n-th outcome of the script; calls
    beyond the script succeed. *)
Definition scripted (script : list (option MongoError)) : Database :=
  fun h _ => nth (calls_so_far h) script None.

Definition plainError : MongoError :=
  {| errorId := 1; errorMessage := "WriteConflict"; errorLabels := [] |}.
Definition transientError : MongoError :=
  {| errorId := 2; errorMessage := "NoSuchTransaction";
     errorLabels := [TransientTransactionError] |}.
Definition unknownCommitError : MongoError :=
  {| errorId := 3; errorMessage := "HostUnreachable";
     errorLabels := [UnknownTransactionCommitResult] |}.
Definition bothLabelsError : MongoError :=
  {| errorId := 4; errorMessage := "NotWritablePrimary";
     errorLabels := [TransientTransactionError; UnknownTransactionCommitResult] |}.

(** ** Names for the events of a run *)

(** Events put in front of what a later computation adds. *)
Definition prepend {A} (es : list event) (p : list event * completion A)
  : list event * completion A :=
  (es ++ fst p, snd p).

Definition started : event := Call (StartTransaction transactionOptions) None.

Definition logCommitted : event := Log "Transaction committed.".
Definition logRetryCommit : event :=
  Log "UnknownTransactionCommitResult, retrying commit operation ...".
Definition logCommitError : event := Log "Error during commit ...".
Definition logAborted : event :=
  Log "Transaction aborted. Caught exception during transaction.".
Definition logRetryTransaction : event :=
  Log "TransientTransactionError, retrying transaction ...".

(** Concrete servers.  Calls are numbered from the first of the history. *)

(** The first [commitTransaction] throws an unlabelled error. *)
Definition commitFailsServer : Database :=
  scripted [None; None; None; Some plainError].

(** The first [commitTransaction] throws a transient error; all else succeeds. *)
Definition commitTransientOnceServer : Database :=
  scripted [None; None; None; Some transientError].

(** The commit outcome is unknown twice (the second error carries both labels),
    then the commit succeeds. *)
Definition commitUnknownTwiceServer : Database :=
  scripted [None; None; None; Some unknownCommitError; Some bothLabelsError; None].

(** ** Termination *)

(** [run] settles (is fulfilled or rejected) when some recursion budget is
    enough for it. *)
Definition terminates (server : Database) (h : list event) : Prop :=
  exists fuel, snd (run server fuel h) <> Pending.

(** Once [bound] commits were attempted, no commit reports an unknown result. *)
Definition commit_settles (server : Database) (bound : nat) : Prop :=
  forall h error,
    bound <= count_calls is_commit h ->
    server h CommitTransaction = Some error ->
    hasErrorLabel error UnknownTransactionCommitResult = false.

(** Once the unit of work was executed [bound] times, none of its operations
    reports a transient error. *)
Definition workUnit_settles (server : Database) (bound : nat) : Prop :=
  forall h c error,
    bound <= workUnit_executions h ->
    c = updateEmployee \/ c = insertEvent ->
    server h c = Some error ->
    hasErrorLabel error TransientTransactionError = false.

(** ** The movie-listing handler (src/unnamed/part_000) *)

(** The cluster behind [MONGODB_CONNECTION_STRING] when the handler runs: what
    each collection holds, in the order a full scan returns it, and whether
    reading it fails. *)
Record Cluster : Type := {
  contents : Collection -> list document;
  readError : Collection -> option MongoError
}.

(** [collection.find()] with its options; a limit of 0 is no limit. *)
Record FindCursor : Type := {
  cursorCollection : Collection;
  cursorLimit : nat
}.

Definition find (coll : Collection) : FindCursor :=
  {| cursorCollection := coll; cursorLimit := 0 |}.

Definition limit (n : nat) (cursor : FindCursor) : FindCursor :=
  {| cursorCollection := cursorCollection cursor; cursorLimit := n |}.

Definition toArray (cluster : Cluster) (cursor : FindCursor) : completion (list document) :=
  match readError cluster (cursorCollection cursor) with
  | Some error => Throw error
  | None =>
      let docs := contents cluster (cursorCollection cursor) in
      Return (if Nat.eqb (cursorLimit cursor) 0 then docs
              else firstn (cursorLimit cursor) docs)
  end.

Record Response : Type := {
  statusCode : Z;
  body : list document
}.

(** [handler(event)], part_000 lines 5-14. *)
Definition handler (cluster : Cluster) (event : value) : completion Response :=
  let db := "sample_mflix" in
  let coll := collection db "movies" in
  match toArray cluster (limit 10 (find coll)) with
  | Return body =>
      let response := {| statusCode := 200; body := body |} in
      Return response
  | Throw error => Throw error
  | Pending => Pending
  end.

(** ** Further observations of a run *)

(** How many events satisfy a test. *)
Fixpoint count_events (p : event -> bool) (es : list event) : nat :=
  match es with
  | [] => 0
  | ev :: es' => (if p ev then 1 else 0) + count_events p es'
  end.

(** A call of the given kind, whatever its outcome. *)
Definition calls (kind : call -> bool) (ev : event) : bool :=
  match ev with
  | Call c _ => kind c
  | Log _ => false
  end.

(** A call of the given kind that succeeded. *)
Definition succeeds (kind : call -> bool) (ev : event) : bool :=
  match ev with
  | Call c None => kind c
  | _ => false
  end.

(** A [commitTransaction] that threw an error without the
    [UnknownTransactionCommitResult] label: the one [commitWithRetry] does not
    retry. *)
Definition commit_fails_for_good (ev : event) : bool :=
  match ev with
  | Call CommitTransaction (Some error) =>
      negb (hasErrorLabel error UnknownTransactionCommitResult)
  | _ => false
  end.

(** The [console.log] of a given message. *)
Definition logs (message : string) (ev : event) : bool :=
  match ev with
  | Log m => String.eqb m message
  | Call _ _ => false
  end.

Definition not_commit (c : call) : bool := negb (is_commit c).

(** The events of commits that threw the given errors, one after the other,
    each followed by the log of its retry. *)
Fixpoint commit_retries (errors : list MongoError) : list event :=
  match errors with
  | [] => []
  | error :: rest =>
      Call CommitTransaction (Some error) :: logRetryCommit :: commit_retries rest
  end.

Definition abortError : MongoError :=
  {| errorId := 5; errorMessage := "Cannot call abortTransaction after calling commitTransaction";
     errorLabels := [] |}.

(** Every [commitTransaction] reports an unknown result. *)
Definition commitAlwaysUnknownServer : Database :=
  fun _ c => if is_commit c then Some unknownCommitError else None.

(** Every [updateOne] throws a transient error. *)
Definition writeAlwaysTransientServer : Database :=
  fun _ c => if is_update c then Some transientError else None.

(** The commit throws an unlabelled error and so does the abort after it. *)
Definition commitAndAbortFailServer : Database :=
  scripted [None; None; None; Some plainError; Some abortError].

(** The commit result is unknown three times, then the commit succeeds. *)
Definition commitUnknownThriceServer : Database :=
  scripted [Some unknownCommitError; Some bothLabelsError; Some unknownCommitError; None].

(** What [commitWithRetry] can add to a run: commit calls and its three logs. *)
Definition commit_event (ev : event) : bool :=
  match ev with
  | Call c _ => is_commit c
  | Log m =>
      String.eqb m "Transaction committed." ||
      String.eqb m "UnknownTransactionCommitResult, retrying commit operation ..." ||
      String.eqb m "Error during commit ..."
  end.

(** 1 when a promise is fulfilled, 0 when it is rejected or pending. *)
Definition fulfilled {A} (r : completion A) : nat :=
  match r with
  | Return _ => 1
  | _ => 0
  end.

(** 1 when a promise is rejected, 0 otherwise. *)
Definition rejected {A} (r : completion A) : nat :=
  match r with
  | Throw _ => 1
  | _ => 0
  end.

(** ** The script around the examples ([transactionExample], lines 10-141) *)

(** The calls the script makes outside the Core API functions.  The calls on a
    session are those of [call]. *)
Inductive hostCall : Type :=
| CreateReplSet
| NewClient
| Connect
| InsertMajority (coll : Collection) (doc : document)
| StartSession
| SessionCall (c : call)
| CloseClient
| StopServer.

Inductive hostEvent : Type :=
| HostCall (c : hostCall) (outcome : option MongoError)
| HostLog (message : string).

(** The in-memory replica set and the driver, as the script sees them. *)
Definition Host : Type := list hostEvent -> hostCall -> option MongoError.

Definition Script (A : Type) : Type := list hostEvent -> list hostEvent * completion A.

(** [await p; k], and [p.then(() => k)]: [k] runs when [p] is fulfilled. *)
Definition andThen {A B} (m : Script A) (k : Script B) : Script B :=
  fun h =>
    let (es, r) := m h in
    match r with
    | Return _ => let (es', r') := k (h ++ es) in (es ++ es', r')
    | Throw error => (es, Throw error)
    | Pending => (es, Pending)
    end.

(** [try { body } finally { cleanup }]: the cleanup runs once the body has
    settled either way; when the cleanup throws, its error wins. *)
Definition tryFinally {A} (body : Script A) (cleanup : Script unit) : Script A :=
  fun h =>
    let (es, r) := body h in
    match r with
    | Pending => (es, Pending)
    | _ =>
        let (es', r') := cleanup (h ++ es) in
        match r' with
        | Return _ => (es ++ es', r)
        | Throw error => (es ++ es', Throw error)
        | Pending => (es ++ es', Pending)
        end
    end.

Definition hostAwait (host : Host) (c : hostCall) : Script unit :=
  fun h =>
    match host h c with
    | None => ([HostCall c None], Return tt)
    | Some error => ([HostCall c (Some error)], Throw error)
    end.

Definition lift_event (ev : event) : hostEvent :=
  match ev with
  | Call c outcome => HostCall (SessionCall c) outcome
  | Log message => HostLog message
  end.

(** A Core API function run from the script: its calls go to the host, after
    all that the script did before. *)
Definition lift {A} (host : Host) (m : Database -> Async A) : Script A :=
  fun h =>
    let server : Database := fun hc c => host (h ++ map lift_event hc) (SessionCall c) in
    let (es, r) := m server [] in
    (map lift_event es, r).

Section TransactionExample.

Variable host : Host.

(** [session.withTransaction(callback, options)] and
    [client.withSession(callback)] belong to the driver: any behaviour. *)
Variable withTransaction : Script unit -> TransactionOptions -> Script unit.
Variable withSession : Script unit -> Script unit.

(** Lines 17-36: the replica set, the client, and the two collections. *)
Definition prerequisites : Script unit :=
  andThen (hostAwait host CreateReplSet)
  (andThen (hostAwait host NewClient)
  (andThen (hostAwait host Connect)
  (andThen (hostAwait host (InsertMajority (collection "mydb1" "foo") [("abc", VNum 0)]))
           (hostAwait host (InsertMajority (collection "mydb2" "bar") [("xyz", VNum 0)]))))).

(** Lines 52-59: the callback of Example 1. *)
Definition callbackExample : Script unit :=
  andThen (hostAwait host (SessionCall (InsertOne (collection "mydb1" "foo") [("abc", VNum 1)])))
          (hostAwait host (SessionCall (InsertOne (collection "mydb2" "bar") [("xyz", VNum 999)]))).

Definition callbackOptions : TransactionOptions :=
  {| readConcern := "local"; writeConcern := "majority"; readPreference := "primary" |}.

(** Lines 38-68: Example 1, the Callback API. *)
Definition example1 : Script unit :=
  andThen (hostAwait host StartSession)
          (tryFinally (withTransaction callbackExample callbackOptions)
                      (hostAwait host (SessionCall EndSession))).

(** Lines 138-140: Example 2 and the end of the script. *)
Definition example2 (fuel : nat) : Script unit :=
  andThen (andThen (withSession (lift host (fun server => run server fuel)))
                   (hostAwait host CloseClient))
          (hostAwait host StopServer).

(** [transactionExample()], lines 10-141. *)
Definition transactionExample (fuel : nat) : Script unit :=
  andThen prerequisites (andThen example1 (example2 fuel)).

End TransactionExample.

(** A driver that calls the callback once, for concrete runs. *)
Definition callOnce (callback : Script unit) : Script unit := callback.

Definition callOnceWith (callback : Script unit) (options : TransactionOptions) : Script unit :=
  callback.

Fixpoint hostCalls_so_far (h : list hostEvent) : nat :=
  match h with
  | [] => 0
  | HostCall _ _ :: h' => S (hostCalls_so_far h')
  | HostLog _ :: h' => hostCalls_so_far h'
  end.

Definition scriptedHost (script : list (option MongoError)) : Host :=
  fun h _ => nth (hostCalls_so_far h) script None.

(** The commit of Example 2 (the thirteenth call) throws an unlabelled error. *)
Definition commitFailsHost : Host :=
  scriptedHost [None; None; None; None; None; None; None; None; None;
                None; None; None; Some plainError].

(** The second insert of Example 1 (the eighth call) throws. *)
Definition callbackFailsHost : Host :=
  scriptedHost [None; None; None; None; None; None; None; Some plainError].

(** Clusters for concrete runs of the handler. *)
Definition movie (n : nat) : document := [("title", VStr "movie"); ("rank", VNum (Z.of_nat n))].

Definition is_movies (coll : Collection) : bool :=
  String.eqb (dbName coll) "sample_mflix" && String.eqb (collectionName coll) "movies".

(** Twelve movies, and nothing else. *)
Definition twelveMovies : Cluster :=
  {| contents := fun coll => if is_movies coll then map movie (seq 0 12) else [];
     readError := fun _ => None |}.

(** The same first ten movies, other ones after them, comments besides, and
    every other collection unreadable. *)
Definition otherCluster : Cluster :=
  {| contents := fun coll =>
                   if is_movies coll then map movie (seq 0 10 ++ seq 50 30)
                   else [[("text", VStr "a comment")]];
     readError := fun coll => if is_movies coll then None else Some plainError |}.

(** Three movies. *)
Definition threeMovies : Cluster :=
  {| contents := fun coll => if is_movies coll then map movie (seq 0 3) else [];
     readError := fun _ => None |}.

(** ** What the driver answers *)

(** The session of the driver keeps the state of its transaction, and refuses
    a call that does not fit it, with an error of its own that carries no
    label: an [abortTransaction] after a [commitTransaction] ([abortError]), a
    [startTransaction] while a transaction is open. *)

(** [startTransaction] while the session still has a transaction that was
    neither committed nor aborted. *)
Definition alreadyInProgressError : MongoError :=
  {| errorId := 6; errorMessage := "Transaction already in progress";
     errorLabels := [] |}.

(** A write that the server refuses for good. *)
Definition duplicateKeyError : MongoError :=
  {| errorId := 7; errorMessage := "E11000 duplicate key error";
     errorLabels := [] |}.

(** The first [updateOne] throws an unlabelled error. *)
Definition writeRejectedServer : Database :=
  scripted [None; Some duplicateKeyError].

(** The first [updateOne] throws a transient error.  The script has not
    aborted the transaction, so the driver refuses to start another. *)
Definition retryRefusedServer : Database :=
  scripted [None; Some transientError; Some alreadyInProgressError].

(** The commit throws a transient error; the driver refuses the abort that
    follows a commit. *)
Definition commitTransientAbortRefusedServer : Database :=
  scripted [None; None; None; Some transientError; Some abortError].

(** Every commit throws a transient error and every abort is refused; all
    other calls succeed. *)
Definition abortRefusingServer : Database :=
  fun _ c =>
    match c with
    | CommitTransaction => Some transientError
    | AbortTransaction => Some abortError
    | _ => None
    end.

(** The driver refuses [abortTransaction] right after a commit that failed
    for good, with an error that is not transient. *)
Definition abort_refused_after_commit (server : Database) : Prop :=
  forall h error,
  exists error',
    server (h ++ [Call CommitTransaction (Some error); logCommitError]) AbortTransaction
    = Some error' /\
    hasErrorLabel error' TransientTransactionError = false.

(** [startTransaction] fails in the driver only, never with a transient error. *)
Definition start_errors_not_transient (server : Database) : Prop :=
  forall h error,
    server h (StartTransaction transactionOptions) = Some error ->
    hasErrorLabel error TransientTransactionError = false.

(** The run that follows an attempt whose error was transient: the two logs,
    then [runTransactionWithRetry] once more, one level deeper. *)
Definition restarted (server : Database) (n m : nat) (h attempt : list event)
  : list event * completion unit :=
  prepend (attempt ++ [logAborted; logRetryTransaction])
    (runTransactionWithRetry n (updateEmployeeInfo server m)
       (h ++ attempt ++ [logAborted; logRetryTransaction])).

(** * Properties *)

Ltac async_unfold :=
  unfold try_catch, bind, await, console_log, throw, pending, prepend.

(** ** One step of each function *)

(** The two laws of [bind] the development uses, pointwise in the history. *)
Lemma bind_ext {A B} (m : Async A) (k k' : A -> Async B) h :
  (forall a h', k a h' = k' a h') -> bind m k h = bind m k' h.
Proof.
  intros E. unfold bind. destruct (m h) as [es [a|e|]]; try reflexivity.
  rewrite E. reflexivity.
Qed.

Lemma bind_assoc {A B C} (m : Async A) (k1 : A -> Async B) (k2 : B -> Async C) h :
  bind (bind m k1) k2 h = bind m (fun a => bind (k1 a) k2) h.
Proof.
  unfold bind. destruct (m h) as [es [a|e|]]; try reflexivity.
  destruct (k1 a (h ++ es)) as [es1 [b|e|]]; try reflexivity.
  rewrite <- app_assoc. destruct (k2 b _) as [es2 r2].
  rewrite <- app_assoc. reflexivity.
Qed.

Section Steps.

Variable server : Database.

Lemma commit_fulfilled fuel h :
  server h CommitTransaction = None ->
  commitWithRetry server (S fuel) h
  = ([Call CommitTransaction None; logCommitted], Return tt).
Proof.
  intros H. simpl. async_unfold. rewrite H. reflexivity.
Qed.

Lemma commit_retried fuel h error :
  server h CommitTransaction = Some error ->
  hasErrorLabel error UnknownTransactionCommitResult = true ->
  commitWithRetry server (S fuel) h
  = prepend [Call CommitTransaction (Some error); logRetryCommit]
      (commitWithRetry server fuel
         (h ++ [Call CommitTransaction (Some error); logRetryCommit])).
Proof.
  intros H L. simpl. async_unfold. rewrite H, L.
  rewrite <- app_assoc. simpl.
  destruct (commitWithRetry server fuel _) as [es r]. reflexivity.
Qed.

Lemma commit_rejected fuel h error :
  server h CommitTransaction = Some error ->
  hasErrorLabel error UnknownTransactionCommitResult = false ->
  commitWithRetry server (S fuel) h
  = ([Call CommitTransaction (Some error); logCommitError], Throw error).
Proof.
  intros H L. simpl. async_unfold. rewrite H, L. reflexivity.
Qed.

(** The transaction function is: start, the unit of work, the guarded commit. *)
Lemma updateEmployeeInfo_workUnit fuel h :
  updateEmployeeInfo server fuel h
  = (await server (StartTransaction transactionOptions) ;;
     workUnit server ;;
     (try commitWithRetry server fuel
      catch error => (await server AbortTransaction ;; throw error))) h.
Proof.
  unfold updateEmployeeInfo, workUnit.
  apply bind_ext. intros _ h'. symmetry. apply bind_assoc.
Qed.

Lemma attempt_start_fails fuel h error :
  server h (StartTransaction transactionOptions) = Some error ->
  updateEmployeeInfo server fuel h
  = ([Call (StartTransaction transactionOptions) (Some error)], Throw error).
Proof.
  intros H. unfold updateEmployeeInfo. async_unfold. rewrite H. reflexivity.
Qed.

Lemma attempt_workUnit_fails fuel h es error :
  server h (StartTransaction transactionOptions) = None ->
  workUnit server (h ++ [started]) = (es, Throw error) ->
  updateEmployeeInfo server fuel h = (started :: es, Throw error).
Proof.
  intros H W. rewrite updateEmployeeInfo_workUnit.
  unfold bind at 1. unfold await at 1. rewrite H.
  unfold bind at 1. fold started. rewrite W. reflexivity.
Qed.

Lemma attempt_commits fuel h es ec :
  server h (StartTransaction transactionOptions) = None ->
  workUnit server (h ++ [started]) = (es, Return tt) ->
  commitWithRetry server fuel (h ++ started :: es) = (ec, Return tt) ->
  updateEmployeeInfo server fuel h = (started :: es ++ ec, Return tt).
Proof.
  intros H W C. rewrite updateEmployeeInfo_workUnit.
  unfold bind at 1. unfold await at 1. rewrite H.
  unfold bind at 1. fold started. rewrite W.
  unfold try_catch. rewrite <- app_assoc. simpl. rewrite C. reflexivity.
Qed.

Lemma attempt_commit_pending fuel h es ec :
  server h (StartTransaction transactionOptions) = None ->
  workUnit server (h ++ [started]) = (es, Return tt) ->
  commitWithRetry server fuel (h ++ started :: es) = (ec, Pending) ->
  updateEmployeeInfo server fuel h = (started :: es ++ ec, Pending).
Proof.
  intros H W C. rewrite updateEmployeeInfo_workUnit.
  unfold bind at 1. unfold await at 1. rewrite H.
  unfold bind at 1. fold started. rewrite W.
  unfold try_catch. rewrite <- app_assoc. simpl. rewrite C. reflexivity.
Qed.

Lemma attempt_commit_fails fuel h es ec error :
  server h (StartTransaction transactionOptions) = None ->
  workUnit server (h ++ [started]) = (es, Return tt) ->
  commitWithRetry server fuel (h ++ started :: es) = (ec, Throw error) ->
  updateEmployeeInfo server fuel h
  = match server (h ++ started :: es ++ ec) AbortTransaction with
    | None => (started :: es ++ ec ++ [Call AbortTransaction None], Throw error)
    | Some error' =>
        (started :: es ++ ec ++ [Call AbortTransaction (Some error')], Throw error')
    end.
Proof.
  intros H W C. rewrite updateEmployeeInfo_workUnit.
  unfold bind at 1. unfold await at 1. rewrite H.
  unfold bind at 1. fold started. rewrite W.
  unfold try_catch. rewrite <- app_assoc. simpl. rewrite C.
  async_unfold. rewrite <- !app_assoc. simpl.
  destruct (server _ AbortTransaction); simpl; rewrite ?app_nil_r; reflexivity.
Qed.

Lemma run_fulfilled fuel (txnFunc : Async unit) h es :
  txnFunc h = (es, Return tt) ->
  runTransactionWithRetry (S fuel) txnFunc h = (es, Return tt).
Proof. intros T. simpl. unfold try_catch. rewrite T. reflexivity. Qed.

Lemma run_pending fuel (txnFunc : Async unit) h es :
  txnFunc h = (es, Pending) ->
  runTransactionWithRetry (S fuel) txnFunc h = (es, Pending).
Proof. intros T. simpl. unfold try_catch. rewrite T. reflexivity. Qed.

Lemma run_rejected fuel (txnFunc : Async unit) h es error :
  txnFunc h = (es, Throw error) ->
  hasErrorLabel error TransientTransactionError = false ->
  runTransactionWithRetry (S fuel) txnFunc h = (es ++ [logAborted], Throw error).
Proof.
  intros T L. simpl. async_unfold. rewrite T, L. reflexivity.
Qed.

Lemma run_retried fuel (txnFunc : Async unit) h es error :
  txnFunc h = (es, Throw error) ->
  hasErrorLabel error TransientTransactionError = true ->
  runTransactionWithRetry (S fuel) txnFunc h
  = prepend (es ++ [logAborted; logRetryTransaction])
      (runTransactionWithRetry fuel txnFunc
         (h ++ es ++ [logAborted; logRetryTransaction])).
Proof.
  intros T L. simpl. async_unfold. rewrite T, L.
  rewrite <- !app_assoc. simpl.
  destruct (runTransactionWithRetry fuel txnFunc _) as [es' r'].
  simpl. rewrite <- ?app_assoc. reflexivity.
Qed.

(** The three ways the unit of work can go. *)
Lemma workUnit_cases h :
  workUnit server h
  = match server h updateEmployee with
    | Some error => ([Call updateEmployee (Some error)], Throw error)
    | None =>
        match server (h ++ [Call updateEmployee None]) insertEvent with
        | Some error =>
            ([Call updateEmployee None; Call insertEvent (Some error)], Throw error)
        | None => ([Call updateEmployee None; Call insertEvent None], Return tt)
        end
    end.
Proof.
  unfold workUnit. async_unfold.
  destruct (server h updateEmployee); [reflexivity|].
  destruct (server _ insertEvent); reflexivity.
Qed.

End Steps.

(** ** Counting calls *)

Lemma count_calls_app kind es es' :
  count_calls kind (es ++ es') = count_calls kind es + count_calls kind es'.
Proof.
  induction es as [|[c o|m] es IH]; simpl; rewrite ?IH; lia.
Qed.

Lemma workUnit_counts server h es r :
  workUnit server h = (es, r) ->
  workUnit_executions es = 1 /\
  count_calls is_start es = 0 /\ count_calls is_commit es = 0 /\
  count_calls is_abort es = 0 /\ count_calls is_close es = 0.
Proof.
  rewrite workUnit_cases. intros W.
  destruct (server h updateEmployee);
    [|destruct (server _ insertEvent)]; inversion W; subst; repeat split; reflexivity.
Qed.

Ltac count_events :=
  repeat (rewrite count_calls_app || (progress simpl)); try lia.

(** ** Retry scenarios *)

Section Scenarios.

Variable server : Database.

(** C5 (P2, commit retry).  When the transaction starts, the unit of work
    succeeds, and [commitTransaction] throws an error labelled
    [UnknownTransactionCommitResult] twice and then succeeds, [run] is
    fulfilled, the unit of work was executed exactly once and
    [commitTransaction] was attempted exactly three times: only the commit
    is called again. *)
Theorem commit_retried_twice_then_fulfilled fuel h es error1 error2 :
  server h (StartTransaction transactionOptions) = None ->
  workUnit server (h ++ [started]) = (es, Return tt) ->
  let h1 := h ++ started :: es in
  server h1 CommitTransaction = Some error1 ->
  hasErrorLabel error1 UnknownTransactionCommitResult = true ->
  let h2 := h1 ++ [Call CommitTransaction (Some error1); logRetryCommit] in
  server h2 CommitTransaction = Some error2 ->
  hasErrorLabel error2 UnknownTransactionCommitResult = true ->
  let h3 := h2 ++ [Call CommitTransaction (Some error2); logRetryCommit] in
  server h3 CommitTransaction = None ->
  let out := run server (3 + fuel) h in
  snd out = Return tt /\
  workUnit_executions (fst out) = 1 /\
  count_calls is_commit (fst out) = 3 /\
  fst out = started :: es ++
            [Call CommitTransaction (Some error1); logRetryCommit;
             Call CommitTransaction (Some error2); logRetryCommit;
             Call CommitTransaction None; logCommitted].
Proof.
  intros S0 W h1 C1 U1 h2 C2 U2 h3 C3 out.
  assert (E : out = (started :: es ++
            [Call CommitTransaction (Some error1); logRetryCommit;
             Call CommitTransaction (Some error2); logRetryCommit;
             Call CommitTransaction None; logCommitted], Return tt)).
  { unfold out, run. change (3 + fuel) with (S (S (S fuel))).
    apply run_fulfilled.
    apply (attempt_commits _ _ _ S0 W). fold h1.
    rewrite (commit_retried _ _ _ C1 U1). fold h2.
    rewrite (commit_retried _ _ _ C2 U2). fold h3.
    rewrite (commit_fulfilled _ _ _ C3). reflexivity. }
  rewrite E. simpl. destruct (workUnit_counts _ _ W) as (Wu & _ & Wc & _).
  unfold workUnit_executions in *.
  repeat split; count_events.
Qed.

End Scenarios.

(** Witness of C5: two unknown commit results, then success. *)
Lemma commit_retried_twice_then_fulfilled_witness :
  let out := run commitUnknownTwiceServer 3 [] in
  snd out = Return tt /\
  workUnit_executions (fst out) = 1 /\
  count_calls is_commit (fst out) = 3.
Proof.
  pose proof (@commit_retried_twice_then_fulfilled commitUnknownTwiceServer 0 []
                [Call updateEmployee None; Call insertEvent None]
                unknownCommitError bothLabelsError
                eq_refl eq_refl eq_refl eq_refl eq_refl eq_refl eq_refl) as H.
  cbv zeta in *. destruct H as (R & W & C & _). repeat split; assumption.
Defined.

(** ** How an attempt opens *)

Section TransientCommit.

Variable server : Database.

(** The transaction function always opens with a [startTransaction] call. *)
Lemma attempt_opens_with_start fuel h :
  exists outcome rest,
    fst (updateEmployeeInfo server fuel h)
    = Call (StartTransaction transactionOptions) outcome :: rest.
Proof.
  rewrite updateEmployeeInfo_workUnit. unfold bind at 1. unfold await at 1.
  destruct (server h (StartTransaction transactionOptions)) as [e|].
  - exists (Some e), []. reflexivity.
  - destruct (bind _ _ _) as [es r]. exists None, es. reflexivity.
Qed.

End TransientCommit.

(** ** What every run satisfies *)

Lemma last_failure_app es es' :
  last_failure (es ++ es')
  = match last_failure es' with
    | Some f => Some f
    | None => last_failure es
    end.
Proof.
  induction es as [|ev es IH]; simpl.
  - destruct (last_failure es'); reflexivity.
  - rewrite IH. destruct (last_failure es'); reflexivity.
Qed.

Section Invariants.

Variable server : Database.

(** *** The session is not closed *)

Lemma commit_never_closes fuel h :
  count_calls is_close (fst (commitWithRetry server fuel h)) = 0.
Proof.
  revert h. induction fuel as [|fuel IH]; intros h; [reflexivity|].
  destruct (server h CommitTransaction) as [e|] eqn:C.
  - destruct (hasErrorLabel e UnknownTransactionCommitResult) eqn:U.
    + rewrite (commit_retried _ _ _ C U). simpl. apply IH.
    + rewrite (commit_rejected _ _ _ C U). reflexivity.
  - rewrite (commit_fulfilled _ _ _ C). reflexivity.
Qed.

Lemma attempt_never_closes fuel h :
  count_calls is_close (fst (updateEmployeeInfo server fuel h)) = 0.
Proof.
  destruct (server h (StartTransaction transactionOptions)) as [e|] eqn:S0.
  { rewrite (attempt_start_fails _ _ _ S0). reflexivity. }
  destruct (workUnit server (h ++ [started])) as [es r] eqn:W.
  destruct (workUnit_counts _ _ W) as (_ & _ & _ & _ & Wc).
  pose proof (commit_never_closes fuel (h ++ started :: es)) as Cc.
  destruct r as [[]|e|].
  - destruct (commitWithRetry server fuel (h ++ started :: es)) as [ec [[]|e|]] eqn:C;
      simpl in Cc.
    + rewrite (attempt_commits _ _ _ S0 W C). simpl. count_events.
    + rewrite (attempt_commit_fails _ _ _ S0 W C).
      destruct (server _ AbortTransaction); simpl; count_events.
    + rewrite (attempt_commit_pending _ _ _ S0 W C). simpl. count_events.
  - rewrite (attempt_workUnit_fails _ _ _ S0 W). simpl. exact Wc.
  - exfalso. rewrite workUnit_cases in W.
    destruct (server _ updateEmployee); [discriminate|].
    destruct (server _ insertEvent); discriminate.
Qed.

Lemma retry_never_closes fuel (txnFunc : Async unit) :
  (forall h, count_calls is_close (fst (txnFunc h)) = 0) ->
  forall h, count_calls is_close (fst (runTransactionWithRetry fuel txnFunc h)) = 0.
Proof.
  intros Txn. induction fuel as [|fuel IH]; intros h; [reflexivity|].
  pose proof (Txn h) as Th.
  destruct (txnFunc h) as [es [[]|e|]] eqn:T; simpl in Th.
  - rewrite (run_fulfilled _ _ _ T). exact Th.
  - destruct (hasErrorLabel e TransientTransactionError) eqn:L.
    + rewrite (run_retried _ _ _ T L). simpl. rewrite !count_calls_app.
      rewrite Th, IH. reflexivity.
    + rewrite (run_rejected _ _ _ T L). simpl. count_events.
  - rewrite (run_pending _ _ _ T). exact Th.
Qed.

(** C7 (P5).  Whatever the server answers and however long [run] is
    observed (fulfilled, rejected, or still retrying), the events of [run]
    hold no call that ends the session. *)
Theorem run_never_closes_session fuel h :
  count_calls is_close (fst (run server fuel h)) = 0.
Proof.
  unfold run. apply retry_never_closes. apply attempt_never_closes.
Qed.

(** *** No transient error is surfaced *)

Lemma retry_never_rejects_transient fuel (txnFunc : Async unit) h es error :
  runTransactionWithRetry fuel txnFunc h = (es, Throw error) ->
  hasErrorLabel error TransientTransactionError = false.
Proof.
  revert h es. induction fuel as [|fuel IH]; intros h es R; [discriminate|].
  destruct (txnFunc h) as [es0 [[]|e|]] eqn:T.
  - rewrite (run_fulfilled _ _ _ T) in R. discriminate.
  - destruct (hasErrorLabel e TransientTransactionError) eqn:L.
    + rewrite (run_retried _ _ _ T L) in R. unfold prepend in R.
      destruct (runTransactionWithRetry fuel txnFunc _) as [es1 r1] eqn:R1.
      simpl in R. inversion R; subst. eapply IH. exact R1.
    + rewrite (run_rejected _ _ _ T L) in R. inversion R; subst. exact L.
  - rewrite (run_pending _ _ _ T) in R. discriminate.
Qed.

(** C9.  An error [run] is rejected with never carries the
    [TransientTransactionError] label.  An error with that label that leaves
    the transaction function is handled inside [run]: the retry is logged and
    the transaction function is called again, with no bound on how often. *)
Theorem run_never_rejects_transient fuel h es error :
  (run server fuel h = (es, Throw error) ->
   hasErrorLabel error TransientTransactionError = false) /\
  (updateEmployeeInfo server (S fuel) h = (es, Throw error) ->
   hasErrorLabel error TransientTransactionError = true ->
   run server (S fuel) h
   = prepend (es ++ [logAborted; logRetryTransaction])
       (runTransactionWithRetry fuel (updateEmployeeInfo server (S fuel))
          (h ++ es ++ [logAborted; logRetryTransaction]))).
Proof.
  split.
  - unfold run. apply retry_never_rejects_transient.
  - intros T L. unfold run. exact (run_retried fuel _ _ T L).
Qed.

End Invariants.

(** Witness of C9: a rejected run. *)
Lemma run_never_rejects_transient_witness :
  run commitFailsServer 4 []
  = ([started; Call updateEmployee None; Call insertEvent None;
      Call CommitTransaction (Some plainError); logCommitError;
      Call AbortTransaction None; logAborted], Throw plainError) /\
  hasErrorLabel plainError TransientTransactionError = false.
Proof.
  split; [reflexivity|].
  exact (proj1 (@run_never_rejects_transient commitFailsServer 4 [] _ plainError)
           eq_refl).
Defined.

(** ** The unit of work settles *)

Section Propagation.

Variable server : Database.

Lemma workUnit_not_pending h es :
  workUnit server h <> (es, Pending).
Proof.
  rewrite workUnit_cases.
  destruct (server h updateEmployee); [discriminate|].
  destruct (server _ insertEvent); discriminate.
Qed.

End Propagation.

(** ** Termination *)

Section Termination.

Variable server : Database.

(** More budget does not change a run that has settled. *)
Lemma commit_fuel_monotone fuel fuel' h :
  snd (commitWithRetry server fuel h) <> Pending ->
  fuel <= fuel' ->
  commitWithRetry server fuel' h = commitWithRetry server fuel h.
Proof.
  revert fuel' h. induction fuel as [|fuel IH]; intros fuel' h NP Le.
  { exfalso. apply NP. reflexivity. }
  destruct fuel' as [|fuel']; [lia|].
  destruct (server h CommitTransaction) as [e|] eqn:C.
  - destruct (hasErrorLabel e UnknownTransactionCommitResult) eqn:U.
    + rewrite (commit_retried _ fuel _ C U) in NP. simpl in NP.
      rewrite (commit_retried _ fuel' _ C U), (commit_retried _ fuel _ C U).
      rewrite (IH fuel' _ NP); [reflexivity|lia].
    + rewrite !(commit_rejected _ _ _ C U). reflexivity.
  - rewrite !(commit_fulfilled _ _ _ C). reflexivity.
Qed.

Lemma attempt_fuel_monotone fuel fuel' h :
  snd (updateEmployeeInfo server fuel h) <> Pending ->
  fuel <= fuel' ->
  updateEmployeeInfo server fuel' h = updateEmployeeInfo server fuel h.
Proof.
  intros NP Le.
  destruct (server h (StartTransaction transactionOptions)) as [e|] eqn:S0.
  { rewrite !(attempt_start_fails _ _ _ S0). reflexivity. }
  destruct (workUnit server (h ++ [started])) as [esw [[]|e|]] eqn:W.
  - assert (C : commitWithRetry server fuel' (h ++ started :: esw)
                = commitWithRetry server fuel (h ++ started :: esw)).
    { apply commit_fuel_monotone; [|exact Le].
      destruct (commitWithRetry server fuel (h ++ started :: esw))
        as [ec [[]|e|]] eqn:C; try discriminate.
      rewrite (attempt_commit_pending _ _ _ S0 W C) in NP. exact NP. }
    destruct (commitWithRetry server fuel (h ++ started :: esw))
      as [ec [[]|e|]] eqn:C0.
    + rewrite (attempt_commits _ _ _ S0 W C), (attempt_commits _ _ _ S0 W C0).
      reflexivity.
    + rewrite (attempt_commit_fails _ _ _ S0 W C),
        (attempt_commit_fails _ _ _ S0 W C0). reflexivity.
    + rewrite (attempt_commit_pending _ _ _ S0 W C),
        (attempt_commit_pending _ _ _ S0 W C0). reflexivity.
  - rewrite !(attempt_workUnit_fails _ _ _ S0 W). reflexivity.
  - exfalso. eapply workUnit_not_pending. exact W.
Qed.

Lemma retry_fuel_monotone n n' m m' h :
  snd (runTransactionWithRetry n (updateEmployeeInfo server m) h) <> Pending ->
  n <= n' -> m <= m' ->
  runTransactionWithRetry n' (updateEmployeeInfo server m') h
  = runTransactionWithRetry n (updateEmployeeInfo server m) h.
Proof.
  revert n' h. induction n as [|n IH]; intros n' h NP Ln Lm.
  { exfalso. apply NP. reflexivity. }
  destruct n' as [|n']; [lia|].
  destruct (updateEmployeeInfo server m h) as [es r] eqn:T.
  assert (T' : updateEmployeeInfo server m' h = (es, r)).
  { rewrite <- T. apply attempt_fuel_monotone; [|exact Lm].
    rewrite T. destruct r as [[]|e|]; try discriminate.
    rewrite (run_pending _ _ _ T) in NP. exact NP. }
  destruct r as [[]|e|].
  - rewrite (run_fulfilled _ _ _ T), (run_fulfilled _ _ _ T'). reflexivity.
  - destruct (hasErrorLabel e TransientTransactionError) eqn:L.
    + rewrite (run_retried n _ _ T L) in NP. simpl in NP.
      rewrite (run_retried n' _ _ T' L), (run_retried n _ _ T L).
      rewrite (IH n' _ NP); [reflexivity|lia|exact Lm].
    + rewrite (run_rejected _ _ _ T L), (run_rejected _ _ _ T' L). reflexivity.
  - rewrite (run_pending _ _ _ T), (run_pending _ _ _ T'). reflexivity.
Qed.

Lemma run_fuel_monotone fuel fuel' h :
  snd (run server fuel h) <> Pending ->
  fuel <= fuel' ->
  run server fuel' h = run server fuel h.
Proof.
  intros NP Le. unfold run. apply retry_fuel_monotone; assumption.
Qed.

Variable boundC : nat.
Hypothesis unknown_bound : commit_settles server boundC.

Lemma commit_terminates fuel h :
  boundC - count_calls is_commit h < fuel ->
  snd (commitWithRetry server fuel h) <> Pending.
Proof.
  revert h. induction fuel as [|fuel IH]; intros h Lt; [lia|].
  destruct (server h CommitTransaction) as [e|] eqn:C.
  - destruct (hasErrorLabel e UnknownTransactionCommitResult) eqn:U.
    + rewrite (commit_retried _ _ _ C U). simpl. apply IH.
      assert (count_calls is_commit h < boundC).
      { destruct (Nat.le_gt_cases boundC (count_calls is_commit h)) as [Ge|]; trivial.
        rewrite (unknown_bound Ge C) in U. discriminate. }
      rewrite count_calls_app. simpl. lia.
    + rewrite (commit_rejected _ _ _ C U). discriminate.
  - rewrite (commit_fulfilled _ _ _ C). discriminate.
Qed.

Lemma attempt_terminates fuel h :
  boundC < fuel ->
  snd (updateEmployeeInfo server fuel h) <> Pending.
Proof.
  intros Lt.
  destruct (server h (StartTransaction transactionOptions)) as [e|] eqn:S0.
  { rewrite (attempt_start_fails _ _ _ S0). discriminate. }
  destruct (workUnit server (h ++ [started])) as [esw [[]|e|]] eqn:W.
  - pose proof (@commit_terminates fuel (h ++ started :: esw)) as CT.
    destruct (commitWithRetry server fuel (h ++ started :: esw))
      as [ec [[]|e|]] eqn:C.
    + rewrite (attempt_commits _ _ _ S0 W C). discriminate.
    + rewrite (attempt_commit_fails _ _ _ S0 W C).
      destruct (server _ AbortTransaction); discriminate.
    + exfalso. apply CT; [lia|reflexivity].
  - rewrite (attempt_workUnit_fails _ _ _ S0 W). discriminate.
  - exfalso. eapply workUnit_not_pending. exact W.
Qed.

End Termination.

(** ** The handler *)

(** C10.  The response does not depend on the event: for any two events the
    handler completes alike.  When it is fulfilled the status code is 200 and
    the body is the first ten documents (fewer when there are fewer) of
    [sample_mflix.movies]; it is rejected only when reading that collection
    fails. *)
Theorem handler_ignores_event cluster event1 event2 :
  handler cluster event1 = handler cluster event2 /\
  match handler cluster event1 with
  | Return response =>
      statusCode response = 200%Z /\
      List.length (body response) <= 10 /\
      body response = firstn 10 (contents cluster (collection "sample_mflix" "movies"))
  | Throw error =>
      readError cluster (collection "sample_mflix" "movies") = Some error
  | Pending => False
  end.
Proof.
  split; [reflexivity|].
  unfold handler, toArray, limit, find.
  cbn [cursorCollection cursorLimit Nat.eqb].
  destruct (readError cluster (collection "sample_mflix" "movies")) as [e|];
    [reflexivity|].
  cbn [statusCode body]. repeat split. apply firstn_le_length.
Qed.

(** * Further properties of the Core API functions *)

Lemma count_events_app p es es' :
  count_events p (es ++ es') = count_events p es + count_events p es'.
Proof.
  induction es as [|ev es IH]; simpl; [reflexivity|]. rewrite IH. lia.
Qed.

Lemma count_calls_events kind es :
  count_calls kind es = count_events (calls kind) es.
Proof.
  induction es as [|[c o|m] es IH]; simpl; rewrite ?IH; reflexivity.
Qed.

Lemma count_calls_commit_retries errors :
  count_calls is_commit (commit_retries errors) = List.length errors /\
  count_calls not_commit (commit_retries errors) = 0.
Proof.
  induction errors as [|e errors [IH1 IH2]]; simpl; [split; reflexivity|].
  rewrite IH1, IH2. split; reflexivity.
Qed.

(** ** [commitWithRetry] *)

(** X1.  However many times in a row [commitTransaction] reports an unknown
    result, [commitWithRetry] calls it again each time, and when it then
    succeeds the promise is fulfilled: the commit was called once more than
    there were unknown results, and nothing else was called. *)
Theorem commitWithRetry_retries_until_fulfilled server errors fuel h :
  (forall n error,
      nth_error errors n = Some error ->
      server (h ++ commit_retries (firstn n errors)) CommitTransaction = Some error /\
      hasErrorLabel error UnknownTransactionCommitResult = true) ->
  server (h ++ commit_retries errors) CommitTransaction = None ->
  let out := commitWithRetry server (S (List.length errors) + fuel) h in
  out = (commit_retries errors ++ [Call CommitTransaction None; logCommitted],
         Return tt) /\
  count_calls is_commit (fst out) = S (List.length errors) /\
  count_calls not_commit (fst out) = 0.
Proof.
  intros Hs Hok out.
  assert (E : out = (commit_retries errors ++ [Call CommitTransaction None; logCommitted],
                     Return tt)).
  { unfold out. clear out. revert h Hs Hok.
    induction errors as [|e errors IH]; intros h Hs Hok.
    - simpl in *. rewrite app_nil_r in Hok.
      apply commit_fulfilled. exact Hok.
    - destruct (Hs 0 e eq_refl) as [C U]. simpl in C. rewrite app_nil_r in C.
      change (S (List.length (e :: errors)) + fuel)
        with (S (S (List.length errors) + fuel)).
      rewrite (commit_retried _ _ _ C U).
      rewrite IH.
      + reflexivity.
      + intros n error Hn. specialize (Hs (S n) error Hn).
        simpl in Hs. rewrite <- app_assoc. exact Hs.
      + rewrite <- app_assoc. exact Hok. }
  rewrite E. simpl.
  destruct (count_calls_commit_retries errors) as [Cc Cn].
  rewrite !count_calls_app, Cc, Cn. simpl. repeat split; lia.
Qed.

(** Witness of X1: three unknown results, then success. *)
Lemma commitWithRetry_retries_until_fulfilled_witness :
  let out := commitWithRetry commitUnknownThriceServer 4 [] in
  snd out = Return tt /\ count_calls is_commit (fst out) = 4.
Proof.
  assert (H : forall n error,
             nth_error [unknownCommitError; bothLabelsError; unknownCommitError] n
             = Some error ->
             commitUnknownThriceServer
               ([] ++ commit_retries
                        (firstn n [unknownCommitError; bothLabelsError; unknownCommitError]))
               CommitTransaction = Some error /\
             hasErrorLabel error UnknownTransactionCommitResult = true).
  { intros [|[|[|[|n]]]] error E; simpl in E; inversion E; subst; split; reflexivity. }
  pose proof (@commitWithRetry_retries_until_fulfilled commitUnknownThriceServer
                [unknownCommitError; bothLabelsError; unknownCommitError] 0 []
                H eq_refl) as T.
  cbv zeta in *. destruct T as (E & C & _). rewrite E in *. split; [reflexivity|exact C].
Defined.

(** X2.  [commitWithRetry] is rejected only by a commit error without the
    [UnknownTransactionCommitResult] label, and with that very error: its last
    two events are the failed commit and the log of it. *)
Theorem commitWithRetry_rejects_with_last_commit_error server fuel h es error :
  commitWithRetry server fuel h = (es, Throw error) ->
  hasErrorLabel error UnknownTransactionCommitResult = false /\
  exists pre,
    es = pre ++ [Call CommitTransaction (Some error); logCommitError] /\
    server (h ++ pre) CommitTransaction = Some error.
Proof.
  revert h es. induction fuel as [|fuel IH]; intros h es R; [discriminate|].
  destruct (server h CommitTransaction) as [e|] eqn:C.
  - destruct (hasErrorLabel e UnknownTransactionCommitResult) eqn:U.
    + rewrite (commit_retried _ _ _ C U) in R. unfold prepend in R.
      destruct (commitWithRetry server fuel _) as [es1 r1] eqn:R1.
      simpl in R. inversion R; subst.
      destruct (IH _ _ R1) as (L & pre & E & Sv). split; [exact L|].
      exists (Call CommitTransaction (Some e) :: logRetryCommit :: pre).
      rewrite E. split; [reflexivity|].
      rewrite <- app_assoc in Sv. exact Sv.
    + rewrite (commit_rejected _ _ _ C U) in R. inversion R; subst.
      split; [exact U|]. exists []. rewrite app_nil_r. split; [reflexivity|exact C].
  - rewrite (commit_fulfilled _ _ _ C) in R. discriminate.
Qed.

(** Witness of X2. *)
Lemma commitWithRetry_rejects_with_last_commit_error_witness :
  hasErrorLabel plainError UnknownTransactionCommitResult = false /\
  exists pre,
    [Call CommitTransaction (Some plainError); logCommitError]
    = pre ++ [Call CommitTransaction (Some plainError); logCommitError] /\
    scripted [Some plainError] ([] ++ pre) CommitTransaction = Some plainError.
Proof.
  exact (@commitWithRetry_rejects_with_last_commit_error (scripted [Some plainError])
           2 [] _ plainError eq_refl).
Defined.

(** X3.  While every [commitTransaction] reports an unknown result,
    [commitWithRetry] does not settle: with room for [fuel] nested calls it has
    called the commit [fuel] times, called nothing else, and is still
    pending.  The retry has no bound of its own. *)
Theorem commitWithRetry_unbounded server fuel h :
  (forall h', exists error,
      server h' CommitTransaction = Some error /\
      hasErrorLabel error UnknownTransactionCommitResult = true) ->
  snd (commitWithRetry server fuel h) = Pending /\
  count_calls is_commit (fst (commitWithRetry server fuel h)) = fuel /\
  count_calls not_commit (fst (commitWithRetry server fuel h)) = 0.
Proof.
  intros Hs. revert h. induction fuel as [|fuel IH]; intros h.
  - repeat split; reflexivity.
  - destruct (Hs h) as (e & C & U).
    rewrite (commit_retried _ _ _ C U). unfold prepend.
    destruct (IH (h ++ [Call CommitTransaction (Some e); logRetryCommit]))
      as (P & Cc & Cn).
    simpl. rewrite Cc, Cn. repeat split; trivial.
Qed.

(** Witness of X3. *)
Lemma commitWithRetry_unbounded_witness :
  snd (commitWithRetry commitAlwaysUnknownServer 7 []) = Pending /\
  count_calls is_commit (fst (commitWithRetry commitAlwaysUnknownServer 7 [])) = 7 /\
  count_calls not_commit (fst (commitWithRetry commitAlwaysUnknownServer 7 [])) = 0.
Proof.
  apply (@commitWithRetry_unbounded commitAlwaysUnknownServer 7 []).
  intros h'. exists unknownCommitError. split; reflexivity.
Defined.

(** ** The shape of one attempt *)

Lemma count_events_none p es :
  Forall (fun ev => p ev = false) es -> count_events p es = 0.
Proof.
  induction 1 as [|ev es Hev _ IH]; simpl; [reflexivity|]. rewrite Hev, IH. reflexivity.
Qed.

Lemma commit_events_count_none p es :
  (forall ev, commit_event ev = true -> p ev = false) ->
  forallb commit_event es = true ->
  count_events p es = 0.
Proof.
  intros Hp Hc. apply count_events_none. rewrite forallb_forall in Hc.
  apply Forall_forall. intros ev Hin. apply Hp, Hc, Hin.
Qed.

Lemma commit_profile server fuel h :
  let out := commitWithRetry server fuel h in
  forallb commit_event (fst out) = true /\
  count_events (succeeds is_commit) (fst out) = fulfilled (snd out) /\
  count_events commit_fails_for_good (fst out) = rejected (snd out) /\
  (snd out = Return tt ->
   exists pre, fst out = pre ++ [Call CommitTransaction None; logCommitted]).
Proof.
  revert h. induction fuel as [|fuel IH]; intros h.
  - simpl. repeat split; trivial. discriminate.
  - cbv zeta in *. destruct (server h CommitTransaction) as [e|] eqn:C.
    + destruct (hasErrorLabel e UnknownTransactionCommitResult) eqn:U.
      * rewrite (commit_retried _ _ _ C U). unfold prepend.
        destruct (IH (h ++ [Call CommitTransaction (Some e); logRetryCommit]))
          as (F & Ok & Bad & End).
        cbn [fst snd]. repeat split.
        -- simpl. exact F.
        -- simpl. exact Ok.
        -- simpl. rewrite U. simpl. exact Bad.
        -- intros R. destruct (End R) as [pre E].
           exists (Call CommitTransaction (Some e) :: logRetryCommit :: pre).
           rewrite E. reflexivity.
      * rewrite (commit_rejected _ _ _ C U). simpl. rewrite U.
        repeat split; trivial. discriminate.
    + rewrite (commit_fulfilled _ _ _ C). simpl. repeat split; trivial.
      intros _. exists []. reflexivity.
Qed.

(** Every way one call of [updateEmployeeInfo] can go. *)
Lemma attempt_shape server fuel h :
  let out := updateEmployeeInfo server fuel h in
  (exists e, out = ([Call (StartTransaction transactionOptions) (Some e)], Throw e)) \/
  (exists e, out = ([started; Call updateEmployee (Some e)], Throw e)) \/
  (exists e, out = ([started; Call updateEmployee None; Call insertEvent (Some e)],
                    Throw e)) \/
  (exists ec rc,
      commitWithRetry server fuel
        (h ++ [started; Call updateEmployee None; Call insertEvent None]) = (ec, rc) /\
      match rc with
      | Return _ =>
          out = (started :: Call updateEmployee None :: Call insertEvent None :: ec,
                 Return tt)
      | Pending =>
          out = (started :: Call updateEmployee None :: Call insertEvent None :: ec,
                 Pending)
      | Throw e =>
          exists o,
            server (h ++ started :: Call updateEmployee None :: Call insertEvent None :: ec)
              AbortTransaction = o /\
            out = (started :: Call updateEmployee None :: Call insertEvent None :: ec
                   ++ [Call AbortTransaction o],
                   Throw (match o with Some e' => e' | None => e end))
      end).
Proof.
  cbv zeta.
  destruct (server h (StartTransaction transactionOptions)) as [e|] eqn:S0.
  { left. exists e. apply attempt_start_fails. exact S0. }
  right.
  pose proof (workUnit_cases server (h ++ [started])) as W.
  destruct (server (h ++ [started]) updateEmployee) as [e|] eqn:U.
  { left. exists e. apply (attempt_workUnit_fails _ _ _ S0 W). }
  right.
  destruct (server ((h ++ [started]) ++ [Call updateEmployee None]) insertEvent)
    as [e|] eqn:I.
  { left. exists e. apply (attempt_workUnit_fails _ _ _ S0 W). }
  right.
  destruct (commitWithRetry server fuel
              (h ++ [started; Call updateEmployee None; Call insertEvent None]))
    as [ec rc] eqn:C.
  exists ec, rc. split; [reflexivity|].
  destruct rc as [[]|e|].
  - apply (attempt_commits _ _ _ S0 W C).
  - eexists. split; [reflexivity|].
    rewrite (attempt_commit_fails _ _ _ S0 W C).
    destruct (server _ AbortTransaction); reflexivity.
  - apply (attempt_commit_pending _ _ _ S0 W C).
Qed.

Ltac commit_free :=
  let ev := fresh "ev" in
  intros ev; destruct ev as [[] []|?]; simpl; try discriminate; try reflexivity.

Lemma commit_event_not_retry_log ev :
  commit_event ev = true ->
  logs "TransientTransactionError, retrying transaction ..." ev = false.
Proof.
  destruct ev as [c o|m]; simpl; [reflexivity|].
  intros H. apply orb_prop in H. destruct H as [H|H]; [apply orb_prop in H; destruct H as [H|H]|];
    apply String.eqb_eq in H; subst; reflexivity.
Qed.

(** What one attempt keeps: one [startTransaction]; a write for each step that
    went well before it; an abort for each commit that failed for good; a
    successful commit exactly when it is fulfilled. *)
Lemma attempt_profile server fuel h :
  let out := updateEmployeeInfo server fuel h in
  count_events (calls is_start) (fst out) = 1 /\
  count_events (calls is_update) (fst out) = count_events (succeeds is_start) (fst out) /\
  count_events (calls is_insert) (fst out) = count_events (succeeds is_update) (fst out) /\
  count_events (calls is_abort) (fst out) = count_events commit_fails_for_good (fst out) /\
  count_events (succeeds is_commit) (fst out) = fulfilled (snd out) /\
  count_events (logs "TransientTransactionError, retrying transaction ...") (fst out) = 0 /\
  (count_events (succeeds is_insert) (fst out) = 0 ->
   count_events (calls is_commit) (fst out) = 0) /\
  (snd out = Return tt ->
   exists pre, fst out = pre ++ [Call CommitTransaction None; logCommitted]).
Proof.
  cbv zeta.
  destruct (attempt_shape server fuel h)
    as [(e & E)|[(e & E)|[(e & E)|(ec & rc & C & E)]]];
    try (rewrite E; simpl; repeat split; trivial; discriminate).
  pose proof (commit_profile server fuel
                (h ++ [started; Call updateEmployee None; Call insertEvent None])) as P.
  cbv zeta in P. rewrite C in P. cbn [fst snd] in P.
  destruct P as (F & Ok & Bad & End).
  assert (Z : forall p, (forall ev, commit_event ev = true -> p ev = false) ->
                        count_events p ec = 0).
  { intros p Hp. apply commit_events_count_none; assumption. }
  assert (Zs : count_events (calls is_start) ec = 0) by (apply Z; commit_free).
  assert (Zu : count_events (calls is_update) ec = 0) by (apply Z; commit_free).
  assert (Zi : count_events (calls is_insert) ec = 0) by (apply Z; commit_free).
  assert (Za : count_events (calls is_abort) ec = 0) by (apply Z; commit_free).
  assert (Zss : count_events (succeeds is_start) ec = 0) by (apply Z; commit_free).
  assert (Zsu : count_events (succeeds is_update) ec = 0) by (apply Z; commit_free).
  assert (Zl : count_events (logs "TransientTransactionError, retrying transaction ...") ec
               = 0) by (apply Z; apply commit_event_not_retry_log).
  destruct rc as [[]|e|].
  - rewrite E. cbn [fst snd]. simpl. rewrite Zs, Zu, Zi, Za, Zss, Zsu, Zl, Ok, Bad.
    repeat split; trivial; try discriminate.
    intros _. destruct (End eq_refl) as [pre Ep].
    exists (started :: Call updateEmployee None :: Call insertEvent None :: pre).
    rewrite Ep. reflexivity.
  - destruct E as (o & _ & E). rewrite E. cbn [fst snd]. simpl.
    rewrite !count_events_app, Zs, Zu, Zi, Za, Zss, Zsu, Zl, Ok, Bad.
    destruct o; simpl; repeat split; trivial; discriminate.
  - rewrite E. cbn [fst snd]. simpl. rewrite Zs, Zu, Zi, Za, Zss, Zsu, Zl, Ok, Bad.
    repeat split; trivial; discriminate.
Qed.

(** ** [runTransactionWithRetry] *)

(** The retry wrapper passes on every property of event lists that holds of
    each call of the transaction function and of the two logs, and that joining
    two lists keeps. *)
Lemma retry_invariant (P : list event -> Prop) (txnFunc : Async unit) :
  P [] ->
  (forall es es', P es -> P es' -> P (es ++ es')) ->
  P [logAborted] ->
  P [logAborted; logRetryTransaction] ->
  (forall h, P (fst (txnFunc h))) ->
  forall fuel h, P (fst (runTransactionWithRetry fuel txnFunc h)).
Proof.
  intros P0 Papp Pa Par Txn. induction fuel as [|fuel IH]; intros h; [exact P0|].
  pose proof (Txn h) as Th.
  destruct (txnFunc h) as [es [[]|e|]] eqn:T; cbn [fst] in Th.
  - rewrite (run_fulfilled _ _ _ T). exact Th.
  - destruct (hasErrorLabel e TransientTransactionError) eqn:L.
    + rewrite (run_retried _ _ _ T L). unfold prepend. cbn [fst].
      apply Papp; [apply Papp; assumption|apply IH].
    + rewrite (run_rejected _ _ _ T L). cbn [fst]. apply Papp; assumption.
  - rewrite (run_pending _ _ _ T). exact Th.
Qed.

Lemma retry_commit_profile server n m h :
  let out := runTransactionWithRetry n (updateEmployeeInfo server m) h in
  count_events (succeeds is_commit) (fst out) = fulfilled (snd out) /\
  (snd out = Return tt ->
   exists pre, fst out = pre ++ [Call CommitTransaction None; logCommitted]) /\
  (snd out <> Pending ->
   count_events (calls is_start) (fst out)
   = S (count_events (logs "TransientTransactionError, retrying transaction ...")
          (fst out))).
Proof.
  cbv zeta. revert h. induction n as [|n IH]; intros h.
  { simpl. repeat split; trivial; try discriminate. intros NP. exfalso. apply NP. reflexivity. }
  pose proof (attempt_profile server m h) as P. cbv zeta in P.
  destruct P as (St & _ & _ & _ & Ok & Lg & _ & End).
  destruct (updateEmployeeInfo server m h) as [es [[]|e|]] eqn:T; cbn [fst snd] in *.
  - rewrite (run_fulfilled _ _ _ T). cbn [fst snd]. rewrite St, Lg. repeat split; trivial.
  - destruct (hasErrorLabel e TransientTransactionError) eqn:L.
    + rewrite (run_retried _ _ _ T L). unfold prepend. cbn [fst snd].
      destruct (IH (h ++ es ++ [logAborted; logRetryTransaction])) as (Ok' & End' & St').
      rewrite !count_events_app, Ok, St, Lg. simpl. repeat split.
      * exact Ok'.
      * intros R. destruct (End' R) as [pre E]. rewrite E.
        exists ((es ++ [logAborted; logRetryTransaction]) ++ pre).
        rewrite <- !app_assoc. reflexivity.
      * intros NP. rewrite (St' NP). lia.
    + rewrite (run_rejected _ _ _ T L). cbn [fst snd].
      rewrite !count_events_app, Ok, St, Lg. simpl. repeat split; trivial. discriminate.
  - rewrite (run_pending _ _ _ T). cbn [fst snd]. rewrite Ok.
    repeat split; trivial; try discriminate.
    intros NP. exfalso. apply NP. reflexivity.
Qed.

(** X4.  A fulfilled [run] has committed exactly once: one [commitTransaction]
    call succeeded, it is the last driver call, and "Transaction committed."
    is the last thing logged.  A run that is rejected, or that is still
    retrying, has no successful commit behind it. *)
Theorem run_commits_exactly_once server fuel h :
  let out := run server fuel h in
  match snd out with
  | Return _ =>
      count_events (succeeds is_commit) (fst out) = 1 /\
      exists pre, fst out = pre ++ [Call CommitTransaction None; logCommitted]
  | _ => count_events (succeeds is_commit) (fst out) = 0
  end.
Proof.
  cbv zeta. unfold run.
  destruct (retry_commit_profile server fuel fuel h) as (Ok & End & _). cbv zeta in *.
  destruct (snd (runTransactionWithRetry fuel (updateEmployeeInfo server fuel) h))
    as [[]|e|]; simpl in Ok; trivial.
  split; [exact Ok|]. apply End. reflexivity.
Qed.

(** X5.  In every run, [abortTransaction] is called once for each
    [commitTransaction] that threw an error without the
    [UnknownTransactionCommitResult] label, and never otherwise: not after a
    failed write, not after a failed [startTransaction], not after an unknown
    commit result. *)
Theorem run_aborts_once_per_failed_commit server fuel h :
  count_calls is_abort (fst (run server fuel h))
  = count_events commit_fails_for_good (fst (run server fuel h)).
Proof.
  rewrite count_calls_events. unfold run.
  apply (retry_invariant
           (fun es => count_events (calls is_abort) es
                      = count_events commit_fails_for_good es));
    try reflexivity.
  - intros es es' E E'. rewrite !count_events_app, E, E'. reflexivity.
  - intros h'. apply attempt_profile.
Qed.

(** X6.  In every run the writes stay inside started transactions and in
    order: [updateOne] is called once for each [startTransaction] that
    succeeded, [insertOne] once for each [updateOne] that succeeded, and
    [commitTransaction] is not called at all unless an [insertOne]
    succeeded. *)
Theorem run_writes_follow_started_transactions server fuel h :
  let es := fst (run server fuel h) in
  count_calls is_update es = count_events (succeeds is_start) es /\
  count_calls is_insert es = count_events (succeeds is_update) es /\
  (count_events (succeeds is_insert) es = 0 -> count_calls is_commit es = 0).
Proof.
  cbv zeta. rewrite !count_calls_events. unfold run.
  apply (retry_invariant
           (fun es =>
              count_events (calls is_update) es = count_events (succeeds is_start) es /\
              count_events (calls is_insert) es = count_events (succeeds is_update) es /\
              (count_events (succeeds is_insert) es = 0 ->
               count_events (calls is_commit) es = 0)));
    try (repeat split; reflexivity).
  - intros es es' (U & I & C) (U' & I' & C').
    rewrite !count_events_app, U, U', I, I'. repeat split.
    intros Z. rewrite C, C'; lia.
  - intros h'. pose proof (attempt_profile server fuel h') as P. cbv zeta in P.
    destruct P as (_ & U & I & _ & _ & _ & C & _). repeat split; assumption.
Qed.

(** X7.  When the commit fails for good and the [abortTransaction] that
    follows throws as well, the abort's error is the one that leaves
    [updateEmployeeInfo]; if it carries no transient label [run] is rejected
    with it, and the commit error is reported to no one. *)
Theorem abort_error_replaces_commit_error server fuel h es ec error error' :
  server h (StartTransaction transactionOptions) = None ->
  workUnit server (h ++ [started]) = (es, Return tt) ->
  commitWithRetry server (S fuel) (h ++ started :: es) = (ec, Throw error) ->
  server (h ++ started :: es ++ ec) AbortTransaction = Some error' ->
  hasErrorLabel error' TransientTransactionError = false ->
  run server (S fuel) h
  = (started :: es ++ ec ++ [Call AbortTransaction (Some error'); logAborted],
     Throw error').
Proof.
  intros S0 W C A T. unfold run.
  pose proof (attempt_commit_fails _ _ _ S0 W C) as Att. rewrite A in Att.
  rewrite (run_rejected fuel _ _ Att T). simpl. rewrite <- !app_assoc. reflexivity.
Qed.

(** Witness of X7: the commit throws [plainError], the abort [abortError]. *)
Lemma abort_error_replaces_commit_error_witness :
  run commitAndAbortFailServer 1 []
  = ([started; Call updateEmployee None; Call insertEvent None;
      Call CommitTransaction (Some plainError); logCommitError;
      Call AbortTransaction (Some abortError); logAborted],
     Throw abortError).
Proof.
  exact (@abort_error_replaces_commit_error commitAndAbortFailServer 0 []
           [Call updateEmployee None; Call insertEvent None]
           [Call CommitTransaction (Some plainError); logCommitError]
           plainError abortError eq_refl eq_refl eq_refl eq_refl eq_refl).
Defined.

(** X8.  [runTransactionWithRetry] makes no driver call of its own: a kind of
    call that the transaction function never makes does not occur in the run,
    however often the function is called again. *)
Theorem retry_adds_no_calls (kind : call -> bool) (txnFunc : Async unit) fuel h :
  (forall h', count_calls kind (fst (txnFunc h')) = 0) ->
  count_calls kind (fst (runTransactionWithRetry fuel txnFunc h)) = 0.
Proof.
  intros Txn.
  apply (retry_invariant (fun es => count_calls kind es = 0)); try reflexivity.
  - intros es es' E E'. rewrite count_calls_app, E, E'. reflexivity.
  - exact Txn.
Qed.

(** Witness of X8: the transaction function of the example never ends the
    session. *)
Lemma retry_adds_no_calls_witness :
  count_calls is_close
    (fst (runTransactionWithRetry 3
            (updateEmployeeInfo commitTransientOnceServer 3) [])) = 0.
Proof.
  apply (@retry_adds_no_calls is_close
           (updateEmployeeInfo commitTransientOnceServer 3) 3 []).
  intros h'. apply attempt_never_closes.
Defined.

(** X9.  A run that has settled started one transaction more than it logged
    retries: every attempt calls [startTransaction] exactly once, and every
    "retrying transaction" is followed by a new attempt. *)
Theorem run_starts_one_transaction_per_attempt server fuel h :
  let out := run server fuel h in
  match snd out with
  | Pending => True
  | _ =>
      count_calls is_start (fst out)
      = S (count_events (logs "TransientTransactionError, retrying transaction ...")
             (fst out))
  end.
Proof.
  cbv zeta. rewrite count_calls_events. unfold run.
  destruct (retry_commit_profile server fuel fuel h) as (_ & _ & St). cbv zeta in St.
  destruct (snd (runTransactionWithRetry fuel (updateEmployeeInfo server fuel) h))
    as [[]|e|]; trivial; apply St; discriminate.
Qed.

Lemma retry_unbounded server n m h :
  (forall h', server h' (StartTransaction transactionOptions) = None) ->
  (forall h', exists error,
      server h' updateEmployee = Some error /\
      hasErrorLabel error TransientTransactionError = true) ->
  let out := runTransactionWithRetry n (updateEmployeeInfo server m) h in
  snd out = Pending /\
  workUnit_executions (fst out) = n /\
  count_calls is_insert (fst out) = 0 /\
  count_calls is_commit (fst out) = 0 /\
  count_calls is_abort (fst out) = 0.
Proof.
  intros Hs Hu. cbv zeta. revert h. induction n as [|n IH]; intros h.
  { repeat split; reflexivity. }
  destruct (Hu (h ++ [started])) as (e & U & L).
  assert (W : workUnit server (h ++ [started])
              = ([Call updateEmployee (Some e)], Throw e)).
  { rewrite workUnit_cases, U. reflexivity. }
  rewrite (run_retried _ _ _ (attempt_workUnit_fails _ m _ (Hs h) W) L).
  unfold prepend. cbn [fst snd].
  destruct (IH (h ++ (started :: [Call updateEmployee (Some e)]) ++
                [logAborted; logRetryTransaction])) as (P & Wn & I & C & A).
  destruct (runTransactionWithRetry n (updateEmployeeInfo server m) _) as [esr rr].
  unfold workUnit_executions in *. cbn [fst snd] in *.
  rewrite !count_calls_app. simpl.
  rewrite Wn, I, C, A. repeat split; trivial.
Qed.

(** X10.  While [startTransaction] succeeds and every [updateOne] throws a
    transient error, [run] does not settle: with room for [fuel] nested calls
    it has executed the unit of work [fuel] times, never reached the insert or
    the commit, never aborted, and is still pending. *)
Theorem run_unbounded server fuel h :
  (forall h', server h' (StartTransaction transactionOptions) = None) ->
  (forall h', exists error,
      server h' updateEmployee = Some error /\
      hasErrorLabel error TransientTransactionError = true) ->
  let out := run server fuel h in
  snd out = Pending /\
  workUnit_executions (fst out) = fuel /\
  count_calls is_insert (fst out) = 0 /\
  count_calls is_commit (fst out) = 0 /\
  count_calls is_abort (fst out) = 0.
Proof.
  intros Hs Hu. unfold run. apply retry_unbounded; assumption.
Qed.

(** Witness of X10. *)
Lemma run_unbounded_witness :
  let out := run writeAlwaysTransientServer 6 [] in
  snd out = Pending /\
  workUnit_executions (fst out) = 6 /\
  count_calls is_insert (fst out) = 0 /\
  count_calls is_commit (fst out) = 0 /\
  count_calls is_abort (fst out) = 0.
Proof.
  apply (@run_unbounded writeAlwaysTransientServer 6 []).
  - intros h'. reflexivity.
  - intros h'. exists transientError. split; reflexivity.
Defined.

(** * The handler, further *)

(** X11.  Only the first ten documents of [sample_mflix.movies], and whether
    reading it fails, reach the response: two clusters that agree on these give
    the same response, whatever else they hold and whatever the events are. *)
Theorem handler_reads_only_first_ten cluster1 cluster2 event1 event2 :
  readError cluster1 (collection "sample_mflix" "movies")
  = readError cluster2 (collection "sample_mflix" "movies") ->
  firstn 10 (contents cluster1 (collection "sample_mflix" "movies"))
  = firstn 10 (contents cluster2 (collection "sample_mflix" "movies")) ->
  handler cluster1 event1 = handler cluster2 event2.
Proof.
  intros R F. unfold handler, toArray, limit, find.
  cbn [cursorCollection cursorLimit Nat.eqb]. rewrite R, F. reflexivity.
Qed.

(** Witness of X11. *)
Lemma handler_reads_only_first_ten_witness :
  handler twelveMovies (VStr "GET /movies") = handler otherCluster (VNum 7) /\
  contents twelveMovies (collection "sample_mflix" "movies")
  <> contents otherCluster (collection "sample_mflix" "movies").
Proof.
  split.
  - exact (@handler_reads_only_first_ten twelveMovies otherCluster
             (VStr "GET /movies") (VNum 7) eq_refl eq_refl).
  - vm_compute. discriminate.
Defined.

(** X12.  When the collection can be read the handler is fulfilled with status
    200 and as many documents as the collection has, up to ten; a collection of
    ten documents or fewer (an empty one too) comes back whole. *)
Theorem handler_body_size cluster event :
  readError cluster (collection "sample_mflix" "movies") = None ->
  exists response,
    handler cluster event = Return response /\
    statusCode response = 200%Z /\
    List.length (body response)
    = Nat.min 10 (List.length (contents cluster (collection "sample_mflix" "movies"))) /\
    (List.length (contents cluster (collection "sample_mflix" "movies")) <= 10 ->
     body response = contents cluster (collection "sample_mflix" "movies")).
Proof.
  intros R. unfold handler, toArray, limit, find.
  cbn [cursorCollection cursorLimit Nat.eqb]. rewrite R.
  eexists. split; [reflexivity|]. cbn [statusCode body]. repeat split.
  - apply length_firstn.
  - intros Le. apply firstn_all2. exact Le.
Qed.

(** Witness of X12: three movies come back, all of them. *)
Lemma handler_body_size_witness :
  exists response,
    handler threeMovies (VNum 0) = Return response /\
    statusCode response = 200%Z /\
    List.length (body response) = Nat.min 10 3 /\
    (3 <= 10 -> body response = map movie (seq 0 3)).
Proof.
  exact (@handler_body_size threeMovies (VNum 0) eq_refl).
Defined.

(** * The script *)

Section ScriptFacts.

Variable host : Host.
Variable withTransaction : Script unit -> TransactionOptions -> Script unit.
Variable withSession : Script unit -> Script unit.

(** X13.  Example 1 ends its session whichever way [withTransaction] settles:
    [endSession] is the call that follows, once.  The outcome of
    [withTransaction] is the outcome of the example, unless [endSession]
    throws: then its error is. *)
Theorem example1_always_ends_session h es (r : completion unit) :
  host h StartSession = None ->
  withTransaction (callbackExample host) callbackOptions (h ++ [HostCall StartSession None])
  = (es, r) ->
  r <> Pending ->
  let outcome := host (h ++ HostCall StartSession None :: es) (SessionCall EndSession) in
  example1 host withTransaction h
  = (HostCall StartSession None :: es ++ [HostCall (SessionCall EndSession) outcome],
     match outcome with
     | Some error => Throw error
     | None => r
     end).
Proof.
  intros S0 W NP outcome. unfold example1, andThen, hostAwait at 1. rewrite S0.
  unfold tryFinally. rewrite W. unfold hostAwait.
  replace ((h ++ [HostCall StartSession None]) ++ es)
    with (h ++ HostCall StartSession None :: es)
    by (rewrite <- app_assoc; reflexivity).
  fold outcome.
  destruct r as [[]|e|]; [| |exfalso; apply NP; reflexivity];
    destruct outcome; reflexivity.
Qed.

(** X14.  When Example 1 is rejected the script is rejected with the same
    error and stops there: Example 2 is not started, the client is not closed
    and the replica set is not stopped. *)
Theorem example1_failure_stops_script fuel h es0 es1 error :
  prerequisites host h = (es0, Return tt) ->
  example1 host withTransaction (h ++ es0) = (es1, Throw error) ->
  transactionExample host withTransaction withSession fuel h
  = (es0 ++ es1, Throw error).
Proof.
  intros P E1. unfold transactionExample. unfold andThen at 1. rewrite P.
  unfold andThen at 1. rewrite E1. reflexivity.
Qed.

(** X15.  When the promise of [client.withSession] is rejected (as it is when
    the transaction of Example 2 fails for good) the script is rejected with
    the same error and makes no further call: [client.close()] and
    [server.stop()] are skipped, the client stays open and the replica set
    keeps running. *)
Theorem failed_transaction_skips_cleanup fuel h es0 es1 es2 error :
  prerequisites host h = (es0, Return tt) ->
  example1 host withTransaction (h ++ es0) = (es1, Return tt) ->
  withSession (lift host (fun server => run server fuel)) (h ++ es0 ++ es1)
  = (es2, Throw error) ->
  transactionExample host withTransaction withSession fuel h
  = (es0 ++ es1 ++ es2, Throw error).
Proof.
  intros P E1 WS. unfold transactionExample. unfold andThen at 1. rewrite P.
  unfold andThen at 1. rewrite E1.
  unfold example2. unfold andThen at 1 2. rewrite <- app_assoc, WS. reflexivity.
Qed.

(** X16.  A fulfilled script has cleaned up: its last two calls are
    [client.close()] and then [server.stop()], both successful. *)
Theorem fulfilled_script_cleans_up fuel h es :
  transactionExample host withTransaction withSession fuel h = (es, Return tt) ->
  exists pre, es = pre ++ [HostCall CloseClient None; HostCall StopServer None].
Proof.
  unfold transactionExample. unfold andThen at 1.
  destruct (prerequisites host h) as [es0 [[]|e|]]; try discriminate.
  unfold andThen at 1.
  destruct (example1 host withTransaction (h ++ es0)) as [es1 [[]|e|]]; try discriminate.
  unfold example2. unfold andThen at 1 2.
  destruct (withSession _ _) as [es2 [[]|e|]]; try discriminate.
  unfold hostAwait.
  destruct (host _ CloseClient) as [e|]; try discriminate.
  destruct (host _ StopServer) as [e|]; try discriminate.
  intros E. inversion E; subst.
  exists (es0 ++ es1 ++ es2). rewrite <- !app_assoc. reflexivity.
Qed.

End ScriptFacts.

(** Witness of X13: the second insert of the callback throws; the session is
    ended all the same. *)
Lemma example1_always_ends_session_witness :
  example1 (scriptedHost [None; None; Some plainError]) callOnceWith []
  = ([HostCall StartSession None;
      HostCall (SessionCall (InsertOne (collection "mydb1" "foo") [("abc", VNum 1)])) None;
      HostCall (SessionCall (InsertOne (collection "mydb2" "bar") [("xyz", VNum 999)]))
        (Some plainError);
      HostCall (SessionCall EndSession) None],
     Throw plainError).
Proof.
  refine (@example1_always_ends_session (scriptedHost [None; None; Some plainError])
            callOnceWith [] _ (Throw plainError) eq_refl eq_refl _).
  discriminate.
Defined.

(** Witness of X14: Example 1 fails, nothing of Example 2 happens. *)
Lemma example1_failure_stops_script_witness :
  transactionExample callbackFailsHost callOnceWith callOnce 3 []
  = ([HostCall CreateReplSet None; HostCall NewClient None; HostCall Connect None;
      HostCall (InsertMajority (collection "mydb1" "foo") [("abc", VNum 0)]) None;
      HostCall (InsertMajority (collection "mydb2" "bar") [("xyz", VNum 0)]) None]
     ++
     [HostCall StartSession None;
      HostCall (SessionCall (InsertOne (collection "mydb1" "foo") [("abc", VNum 1)])) None;
      HostCall (SessionCall (InsertOne (collection "mydb2" "bar") [("xyz", VNum 999)]))
        (Some plainError);
      HostCall (SessionCall EndSession) None],
     Throw plainError).
Proof.
  exact (@example1_failure_stops_script callbackFailsHost callOnceWith callOnce 3 []
           _ _ plainError eq_refl eq_refl).
Defined.

(** Witness of X15: the commit of Example 2 fails for good; the last event of
    the script is the log of [runTransactionWithRetry], not a clean-up call. *)
Lemma failed_transaction_skips_cleanup_witness :
  snd (transactionExample commitFailsHost callOnceWith callOnce 3 []) = Throw plainError /\
  last (fst (transactionExample commitFailsHost callOnceWith callOnce 3 []))
       (HostLog "")
  = lift_event logAborted.
Proof.
  pose proof (@failed_transaction_skips_cleanup commitFailsHost callOnceWith callOnce 3 []
                (fst (prerequisites commitFailsHost []))
                (fst (example1 commitFailsHost callOnceWith
                        ([] ++ fst (prerequisites commitFailsHost []))))
                (map lift_event (fst (run commitFailsServer 3 [])))
                plainError eq_refl eq_refl eq_refl) as E.
  rewrite E. split; reflexivity.
Defined.

(** Witness of X16: nothing fails. *)
Lemma fulfilled_script_cleans_up_witness :
  exists pre,
    fst (transactionExample (scriptedHost []) callOnceWith callOnce 3 [])
    = pre ++ [HostCall CloseClient None; HostCall StopServer None].
Proof.
  exact (@fulfilled_script_cleans_up (scriptedHost []) callOnceWith callOnce 3 []
           (fst (transactionExample (scriptedHost []) callOnceWith callOnce 3 []))
           eq_refl).
Defined.

(** * Where [updateEmployeeInfo] aborts, and where it does not *)

(** Every attempt of a run is a call
    [runTransactionWithRetry (S n) (updateEmployeeInfo server m) h] for some
    depth [n], commit budget [m] and history [h]; [run server (S n) h] is the
    first one.  The theorems of this part are stated for all of them. *)

Lemma commit_rejection_ends server fuel h es error :
  commitWithRetry server fuel h = (es, Throw error) ->
  exists pre,
    es = pre ++ [Call CommitTransaction (Some error); logCommitError] /\
    server (h ++ pre) CommitTransaction = Some error /\
    hasErrorLabel error UnknownTransactionCommitResult = false.
Proof.
  revert h es. induction fuel as [|fuel IH]; intros h es R; [discriminate|].
  destruct (server h CommitTransaction) as [e|] eqn:C.
  - destruct (hasErrorLabel e UnknownTransactionCommitResult) eqn:U.
    + rewrite (commit_retried _ _ _ C U) in R. unfold prepend in R.
      destruct (commitWithRetry server fuel _) as [es1 r1] eqn:R1.
      simpl in R. inversion R; subst.
      destruct (IH _ _ R1) as (pre & E & Sv & L).
      exists (Call CommitTransaction (Some e) :: logRetryCommit :: pre).
      rewrite E. repeat split; trivial.
      rewrite <- app_assoc in Sv. exact Sv.
    + rewrite (commit_rejected _ _ _ C U) in R. inversion R; subst.
      exists []. rewrite app_nil_r. repeat split; trivial.
  - rewrite (commit_fulfilled _ _ _ C) in R. discriminate.
Qed.

Lemma commit_makes_no_abort server fuel h :
  count_calls is_abort (fst (commitWithRetry server fuel h)) = 0.
Proof.
  rewrite count_calls_events.
  destruct (commit_profile server fuel h) as (F & _).
  apply commit_events_count_none; [commit_free|exact F].
Qed.

(** What an attempt does once its commit has failed for good, whatever the
    labels of the commit error and whatever the abort answers. *)
Lemma failed_commit_step server n m h es ec error :
  server h (StartTransaction transactionOptions) = None ->
  workUnit server (h ++ [started]) = (es, Return tt) ->
  commitWithRetry server m (h ++ started :: es) = (ec, Throw error) ->
  let outcome := server (h ++ started :: es ++ ec) AbortTransaction in
  let thrown := match outcome with Some error' => error' | None => error end in
  let attempt := started :: es ++ ec ++ [Call AbortTransaction outcome] in
  updateEmployeeInfo server m h = (attempt, Throw thrown) /\
  (exists pre, ec = pre ++ [Call CommitTransaction (Some error); logCommitError]) /\
  count_calls is_abort attempt = 1 /\
  runTransactionWithRetry (S n) (updateEmployeeInfo server m) h
  = if hasErrorLabel thrown TransientTransactionError
    then restarted server n m h attempt
    else (attempt ++ [logAborted], Throw thrown).
Proof.
  intros S0 W C outcome thrown attempt.
  assert (Att : updateEmployeeInfo server m h = (attempt, Throw thrown)).
  { rewrite (attempt_commit_fails _ _ _ S0 W C). fold outcome.
    unfold attempt, thrown. destruct outcome; reflexivity. }
  split; [exact Att|]. split; [|split].
  - destruct (commit_rejection_ends _ _ _ C) as (pre & E & _). exists pre. exact E.
  - unfold attempt. destruct (workUnit_counts _ _ W) as (_ & _ & _ & Wa & _).
    pose proof (commit_makes_no_abort server m (h ++ started :: es)) as Ca.
    rewrite C in Ca. cbn [fst] in Ca.
    simpl. rewrite !count_calls_app, Wa, Ca. reflexivity.
  - destruct (hasErrorLabel thrown TransientTransactionError) eqn:T.
    + rewrite (run_retried n _ _ Att T). reflexivity.
    + rewrite (run_rejected n _ _ Att T). reflexivity.
Qed.

Section Aborts.

Variable server : Database.

(** C1, what the code does.  When the unit of work throws an error that
    carries neither label, in whichever attempt of a run,
    [runTransactionWithRetry] is rejected with that very error and the attempt
    has called neither [commitTransaction] (as claimed) nor [abortTransaction]
    (claimed: exactly once): the writes sit outside the [try] whose [catch]
    aborts. *)
Theorem workUnit_error_rejects_without_abort n m h es error :
  server h (StartTransaction transactionOptions) = None ->
  workUnit server (h ++ [started]) = (es, Throw error) ->
  hasErrorLabel error TransientTransactionError = false ->
  hasErrorLabel error UnknownTransactionCommitResult = false ->
  let out := runTransactionWithRetry (S n) (updateEmployeeInfo server m) h in
  out = (started :: es ++ [logAborted], Throw error) /\
  count_calls is_abort (fst out) = 0 /\
  count_calls is_commit (fst out) = 0.
Proof.
  intros S0 W T _ out.
  assert (E : out = (started :: es ++ [logAborted], Throw error)).
  { unfold out.
    rewrite (run_rejected n _ _ (attempt_workUnit_fails _ m _ S0 W) T).
    reflexivity. }
  rewrite E. simpl. destruct (workUnit_counts _ _ W) as (_ & _ & Wc & Wa & _).
  repeat split; count_events.
Qed.

(** C4, what the code does.  When the unit of work throws a transient error
    the transaction is not aborted before the retry; and when the driver
    therefore refuses the [startTransaction] of the retry, with an error that
    is not transient, [runTransactionWithRetry] is rejected with that error:
    the unit of work was executed once, not twice, and the run is not
    fulfilled. *)
Theorem transient_retry_refused n m h es error error2 :
  server h (StartTransaction transactionOptions) = None ->
  workUnit server (h ++ [started]) = (es, Throw error) ->
  hasErrorLabel error TransientTransactionError = true ->
  let h1 := h ++ started :: es ++ [logAborted; logRetryTransaction] in
  server h1 (StartTransaction transactionOptions) = Some error2 ->
  hasErrorLabel error2 TransientTransactionError = false ->
  let out := runTransactionWithRetry (S (S n)) (updateEmployeeInfo server m) h in
  out = (started :: es ++
         [logAborted; logRetryTransaction;
          Call (StartTransaction transactionOptions) (Some error2); logAborted],
         Throw error2) /\
  workUnit_executions (fst out) = 1 /\
  count_calls is_abort (fst out) = 0.
Proof.
  intros S0 W T h1 S1 T2 out.
  assert (E : out = (started :: es ++
         [logAborted; logRetryTransaction;
          Call (StartTransaction transactionOptions) (Some error2); logAborted],
         Throw error2)).
  { unfold out.
    rewrite (run_retried (S n) _ _ (attempt_workUnit_fails _ m _ S0 W) T).
    change (h ++ (started :: es) ++ [logAborted; logRetryTransaction]) with h1.
    rewrite (run_rejected n _ _ (attempt_start_fails _ m _ S1) T2).
    unfold prepend. simpl. rewrite <- app_assoc. reflexivity. }
  rewrite E. simpl. destruct (workUnit_counts _ _ W) as (Wu & _ & _ & Wa & _).
  unfold workUnit_executions in *.
  repeat split; count_events.
Qed.



End Aborts.

(** Witness of C1, the failing input: the first [updateOne] throws an
    unlabelled error; the run is rejected with it and has aborted nothing. *)
Lemma workUnit_error_rejects_without_abort_witness :
  let out := run writeRejectedServer 3 [] in
  out = ([started; Call updateEmployee (Some duplicateKeyError); logAborted],
         Throw duplicateKeyError) /\
  count_calls is_abort (fst out) = 0 /\
  count_calls is_commit (fst out) = 0.
Proof.
  exact (@workUnit_error_rejects_without_abort writeRejectedServer 2 3 []
           [Call updateEmployee (Some duplicateKeyError)] duplicateKeyError
           eq_refl eq_refl eq_refl eq_refl).
Defined.

(** Witness of C4, the failing input: the first [updateOne] throws a transient
    error and the driver refuses the second [startTransaction]. *)
Lemma transient_retry_refused_witness :
  let out := run retryRefusedServer 3 [] in
  out = ([started; Call updateEmployee (Some transientError);
          logAborted; logRetryTransaction;
          Call (StartTransaction transactionOptions) (Some alreadyInProgressError);
          logAborted],
         Throw alreadyInProgressError) /\
  workUnit_executions (fst out) = 1 /\
  count_calls is_abort (fst out) = 0.
Proof.
  exact (@transient_retry_refused retryRefusedServer 1 3 []
           [Call updateEmployee (Some transientError)] transientError
           alreadyInProgressError eq_refl eq_refl eq_refl eq_refl eq_refl).
Defined.





(** * Which error reaches the caller *)

Section Rejections.

Variable server : Database.

(** The error an attempt throws is that of its last call that failed.  When
    that call is the commit, the abort after it succeeded; when it is the
    abort, a failed commit came right before and its error is dropped. *)
Lemma attempt_rejection_source fuel h es error :
  updateEmployeeInfo server fuel h = (es, Throw error) ->
  exists c pre post,
    es = pre ++ Call c (Some error) :: post /\
    server (h ++ pre) c = Some error /\
    last_failure post = None /\
    (is_commit c = true -> post = [logCommitError; Call AbortTransaction None]) /\
    (is_abort c = true ->
     post = [] /\
     exists pre' error0,
       pre = pre' ++ [Call CommitTransaction (Some error0); logCommitError]).
Proof.
  destruct (server h (StartTransaction transactionOptions)) as [e|] eqn:S0.
  { rewrite (attempt_start_fails _ _ _ S0). intros R. inversion R; subst.
    exists (StartTransaction transactionOptions), [], [].
    rewrite app_nil_r. repeat split; trivial; discriminate. }
  pose proof (workUnit_cases server (h ++ [started])) as Wc.
  destruct (workUnit server (h ++ [started])) as [esw [[]|e|]] eqn:W.
  - destruct (commitWithRetry server fuel (h ++ started :: esw)) as [ec [[]|e|]] eqn:C.
    + rewrite (attempt_commits _ _ _ S0 W C). discriminate.
    + rewrite (attempt_commit_fails _ _ _ S0 W C).
      destruct (commit_rejection_ends _ _ _ C) as (prec & Ec & Sc & _).
      destruct (server (h ++ started :: esw ++ ec) AbortTransaction) as [e'|] eqn:A;
        intros R; inversion R; subst.
      * exists AbortTransaction,
          (started :: esw ++ prec ++ [Call CommitTransaction (Some e); logCommitError]),
          [].
        split; [simpl; rewrite <- !app_assoc; reflexivity|].
        split; [exact A|]. split; [reflexivity|]. split; [discriminate|].
        intros _. split; [reflexivity|].
        exists (started :: esw ++ prec), e.
        simpl. rewrite <- !app_assoc. reflexivity.
      * exists CommitTransaction, (started :: esw ++ prec),
          [logCommitError; Call AbortTransaction None].
        split; [simpl; rewrite <- !app_assoc; reflexivity|].
        split; [rewrite <- Sc, <- app_assoc; reflexivity|].
        split; [reflexivity|]. split; [reflexivity|]. discriminate.
    + rewrite (attempt_commit_pending _ _ _ S0 W C). discriminate.
  - rewrite (attempt_workUnit_fails _ _ _ S0 W). intros R. inversion R; subst.
    destruct (server (h ++ [started]) updateEmployee) as [e1|] eqn:U.
    + inversion Wc; subst.
      exists updateEmployee, [started], [].
      repeat split; trivial; discriminate.
    + destruct (server ((h ++ [started]) ++ [Call updateEmployee None]) insertEvent)
        as [e2|] eqn:I; inversion Wc; subst.
      exists insertEvent, [started; Call updateEmployee None], [].
      repeat split; trivial; try discriminate.
      rewrite <- I, <- app_assoc. reflexivity.
  - exfalso. eapply workUnit_not_pending. exact W.
Qed.

Lemma retry_rejection_source n m h es error :
  runTransactionWithRetry n (updateEmployeeInfo server m) h = (es, Throw error) ->
  exists c pre post,
    es = pre ++ Call c (Some error) :: post /\
    server (h ++ pre) c = Some error /\
    last_failure post = None /\
    (is_commit c = true ->
     post = [logCommitError; Call AbortTransaction None; logAborted]) /\
    (is_abort c = true ->
     post = [logAborted] /\
     exists pre' error0,
       pre = pre' ++ [Call CommitTransaction (Some error0); logCommitError]).
Proof.
  revert h es. induction n as [|n IH]; intros h es R; [discriminate|].
  destruct (updateEmployeeInfo server m h) as [es0 [[]|e|]] eqn:T.
  - rewrite (run_fulfilled _ _ _ T) in R. discriminate.
  - destruct (hasErrorLabel e TransientTransactionError) eqn:L.
    + rewrite (run_retried _ _ _ T L) in R. unfold prepend in R.
      destruct (runTransactionWithRetry n (updateEmployeeInfo server m) _)
        as [es1 r1] eqn:R1.
      simpl in R. inversion R; subst.
      destruct (IH _ _ R1) as (c & pre & post & E & Sv & NF & Cm & Ab).
      exists c, ((es0 ++ [logAborted; logRetryTransaction]) ++ pre), post.
      repeat split; trivial.
      * rewrite E, <- !app_assoc. reflexivity.
      * rewrite <- Sv, <- !app_assoc. reflexivity.
      * apply Ab; assumption.
      * destruct (Ab H) as (_ & pre' & e0 & Ep).
        exists ((es0 ++ [logAborted; logRetryTransaction]) ++ pre'), e0.
        rewrite Ep, <- !app_assoc. reflexivity.
    + rewrite (run_rejected _ _ _ T L) in R. inversion R; subst.
      destruct (attempt_rejection_source _ _ T) as (c & pre & post & E & Sv & NF & Cm & Ab).
      exists c, pre, (post ++ [logAborted]).
      repeat split; trivial.
      * rewrite E, <- app_assoc. reflexivity.
      * rewrite last_failure_app. simpl. exact NF.
      * intros Hc. rewrite (Cm Hc). reflexivity.
      * destruct (Ab H) as (Ep & _). rewrite Ep. reflexivity.
      * destruct (Ab H) as (_ & Ex). exact Ex.
  - rewrite (run_pending _ _ _ T) in R. discriminate.
Qed.


End Rejections.



(** * Termination *)

Section TerminationWithDriver.

Variable server : Database.
Variables boundW boundC : nat.
Hypothesis writes_settle : workUnit_settles server boundW.
Hypothesis commits_settle : commit_settles server boundC.
Hypothesis abort_refused : abort_refused_after_commit server.
Hypothesis start_not_transient : start_errors_not_transient server.

(** A transient error of the unit of work comes before the bound. *)
Lemma workUnit_transient_before_bound h es error :
  workUnit server h = (es, Throw error) ->
  hasErrorLabel error TransientTransactionError = true ->
  workUnit_executions h < boundW.
Proof.
  rewrite workUnit_cases. intros W L.
  destruct (Nat.le_gt_cases boundW (workUnit_executions h)) as [Ge|]; trivial.
  exfalso. pose proof writes_settle as WS. unfold workUnit_settles in WS.
  destruct (server h updateEmployee) as [e1|] eqn:U.
  - inversion W; subst.
    rewrite (WS h updateEmployee error Ge (or_introl eq_refl) U) in L. discriminate.
  - destruct (server (h ++ [Call updateEmployee None]) insertEvent) as [e2|] eqn:I;
      inversion W; subst.
    assert (Ge' : boundW <= workUnit_executions (h ++ [Call updateEmployee None])).
    { unfold workUnit_executions in *. rewrite count_calls_app. simpl. lia. }
    rewrite (WS _ insertEvent error Ge' (or_intror eq_refl) I) in L. discriminate.
Qed.

(** After a commit that failed for good the attempt throws the error of the
    refused abort, which is not transient. *)
Lemma failed_commit_not_retried m h es ec error :
  server h (StartTransaction transactionOptions) = None ->
  workUnit server (h ++ [started]) = (es, Return tt) ->
  commitWithRetry server m (h ++ started :: es) = (ec, Throw error) ->
  exists attempt thrown,
    updateEmployeeInfo server m h = (attempt, Throw thrown) /\
    hasErrorLabel thrown TransientTransactionError = false.
Proof.
  intros S0 W C.
  destruct (commit_rejection_ends _ _ _ C) as (pre & E & _).
  pose proof abort_refused as AR. unfold abort_refused_after_commit in AR.
  destruct (AR (h ++ started :: es ++ pre) error) as (e' & A & L).
  assert (A' : server (h ++ started :: es ++ ec) AbortTransaction = Some e').
  { rewrite <- A, E. f_equal. rewrite <- !app_assoc. simpl.
    rewrite <- !app_assoc. reflexivity. }
  rewrite (attempt_commit_fails _ _ _ S0 W C), A'.
  eexists. exists e'. split; [reflexivity|exact L].
Qed.

Lemma retry_terminates n m h :
  boundC < m ->
  boundW - workUnit_executions h < n ->
  snd (runTransactionWithRetry n (updateEmployeeInfo server m) h) <> Pending.
Proof.
  intros Lm. revert h. induction n as [|n IH]; intros h Ln; [lia|].
  pose proof start_not_transient as SN. unfold start_errors_not_transient in SN.
  destruct (server h (StartTransaction transactionOptions)) as [e|] eqn:S0.
  { rewrite (run_rejected n _ _ (attempt_start_fails _ m _ S0) (SN h e S0)).
    discriminate. }
  destruct (workUnit server (h ++ [started])) as [esw [[]|e|]] eqn:W.
  - pose proof (@commit_terminates server boundC commits_settle m
                  (h ++ started :: esw)) as CT.
    destruct (commitWithRetry server m (h ++ started :: esw)) as [ec [[]|e|]] eqn:C.
    + rewrite (run_fulfilled n _ _ (attempt_commits _ _ _ S0 W C)). discriminate.
    + destruct (@failed_commit_not_retried m h _ _ _ S0 W C)
        as (att & thrown & Att & L).
      rewrite (run_rejected n _ _ Att L). discriminate.
    + exfalso. apply CT; [lia|reflexivity].
  - pose proof (attempt_workUnit_fails _ m _ S0 W) as Att.
    destruct (hasErrorLabel e TransientTransactionError) eqn:L.
    + rewrite (run_retried n _ _ Att L). simpl. apply IH.
      pose proof (workUnit_transient_before_bound _ W L) as Lt.
      destruct (workUnit_counts _ _ W) as (Wu & _).
      unfold workUnit_executions in *.
      rewrite count_calls_app in Lt. simpl in Lt.
      simpl. rewrite !count_calls_app. simpl. rewrite !count_calls_app. simpl. lia.
    + rewrite (run_rejected n _ _ Att L). discriminate.
  - exfalso. eapply workUnit_not_pending. exact W.
Qed.

End TerminationWithDriver.


Lemma abortRefusing_writes_settle :
  workUnit_settles abortRefusingServer 0.
Proof.
  intros h c error _ [Wc|Wc]; subst; discriminate.
Qed.

Lemma abortRefusing_commits_settle :
  commit_settles abortRefusingServer 0.
Proof.
  intros h error _ E. inversion E. reflexivity.
Qed.

Lemma abortRefusing_abort_refused :
  abort_refused_after_commit abortRefusingServer.
Proof.
  intros h error. exists abortError. split; reflexivity.
Qed.

Lemma abortRefusing_start_not_transient :
  start_errors_not_transient abortRefusingServer.
Proof.
  intros h error E. discriminate.
Qed.

